(** * create_files_json.py: a shallow embedding and its properties

    The script lists the files tracked by git, reads each one (base64 for
    binary files, UTF-8 text with replacement otherwise) and dumps the
    collection as an indented JSON array.

    Python values are modelled as follows:
    - [str] is a list of Unicode code points ([pystr]);
    - [bytes] is a list of [Byte.byte];
    - an exception is the value of [str(e)];
    - code that may raise returns a [result];
    - the outside world (the git subprocess, the disk, the output file) is a
      record [world] that the functions read. *)

From Stdlib Require Import List NArith ZArith Bool Ascii String Lia.
From Stdlib.Strings Require Import Byte.
From Stdlib Require Import DecimalString.
Import ListNotations.

Set Implicit Arguments.
Open Scope string_scope.
Open Scope list_scope.

(** ** Python strings *)

Definition codepoint := N.
Definition pystr := list codepoint.

(** ASCII string literals of the source, as code points. *)
Fixpoint lit (s : string) : pystr :=
  match s with
  | EmptyString => []
  | String c s' => N_of_ascii c :: lit s'
  end.

Definition pystr_eqb (a b : pystr) : bool :=
  if list_eq_dec N.eq_dec a b then true else false.

Definition LF : codepoint := 10%N.
Definition CR : codepoint := 13%N.

(** ** Exceptions and results *)

(** An exception is identified by its message, [str(e)]. *)
Inductive exn : Type := Exception (msg : pystr).

Definition exn_str (e : exn) : pystr := let (m) := e in m.

Inductive result (A : Type) : Type :=
| Ok (a : A)
| Raise (e : exn).
Arguments Ok {A} a.
Arguments Raise {A} e.

Definition bind {A B} (r : result A) (k : A -> result B) : result B :=
  match r with
  | Ok a => k a
  | Raise e => Raise e
  end.

Declare Scope py_scope.
Delimit Scope py_scope with py.
Notation "x <- c ;; k" := (bind c (fun x => k))
  (at level 61, c at next level, right associativity) : py_scope.
Notation "c ;;; k" := (bind c (fun _ => k))
  (at level 61, right associativity) : py_scope.
Open Scope py_scope.

(** ** str.split and str.strip *)

(** [s.split(sep)] for a one-character separator: the fields between the
    separators, empty fields included; never the empty list. *)
Fixpoint split (sep : codepoint) (s : pystr) : list pystr :=
  match s with
  | [] => [[]]
  | c :: s' =>
      if N.eqb c sep then [] :: split sep s'
      else match split sep s' with
           | [] => [[c]]
           | f :: fs => (c :: f) :: fs
           end
  end.

(** The code points for which [str.isspace] holds, which [str.strip()]
    removes: the C0 separators, space, NEL, NBSP and the Unicode spaces. *)
Definition isspace (c : codepoint) : bool :=
  ((9 <=? c) && (c <=? 13) || (28 <=? c) && (c <=? 32)
   || (c =? 133) || (c =? 160) || (c =? 5760)
   || (8192 <=? c) && (c <=? 8202)
   || (c =? 8232) || (c =? 8233) || (c =? 8239) || (c =? 8287)
   || (c =? 12288))%N.

Fixpoint lstrip (s : pystr) : pystr :=
  match s with
  | [] => []
  | c :: s' => if isspace c then lstrip s' else s
  end.

Definition rstrip (s : pystr) : pystr := rev (lstrip (rev s)).

Definition strip (s : pystr) : pystr := rstrip (lstrip s).

(** Truth value of a string: non-empty. *)
Definition truthy (s : pystr) : bool :=
  match s with [] => false | _ => true end.

(** ** The git subprocess *)

(** What [subprocess.run(..., capture_output=True, text=True)] hands back. *)
Record CompletedProcess : Type := {
  returncode : Z;
  stdout : pystr
}.

(** ** The disk *)

Definition bytes := list byte.

(** What a path names: a file that opens and holds [data]; something that
    exists but whose [open] raises (a directory, a file without read
    permission), with the message of the error; or nothing, [open] raising
    with the given message. *)
Inductive node : Type :=
| Regular (data : bytes)
| Unreadable (msg : pystr)
| Missing (msg : pystr).

Record world : Type := {
  chdir : result unit;
  run_git_ls_files : result CompletedProcess;
  disk : pystr -> node;
  create_output : result unit
}.

(** ** get_git_files *)

Definition get_git_files (w : world) : result (list pystr) :=
  result_ <- run_git_ls_files w ;;
  if Z.eqb (returncode result_) 0
  then Ok (map strip (filter (fun f => truthy (strip f))
                             (split LF (stdout result_))))
  else Ok [].

(** ** Files *)

(** [os.path.exists]. *)
Definition exists_ (w : world) (p : pystr) : bool :=
  match disk w p with
  | Missing _ => false
  | _ => true
  end.

(** [open(p, mode)]: the bytes behind the handle, or the error of the disk. *)
Definition open_ (w : world) (p : pystr) : result bytes :=
  match disk w p with
  | Regular data => Ok data
  | Unreadable msg => Raise (Exception msg)
  | Missing msg => Raise (Exception msg)
  end.

(** [f.read(n)] and [f.read()] on a handle just opened in binary mode. *)
Definition read_n (n : nat) (f : bytes) : bytes := firstn n f.
Definition read_all (f : bytes) : bytes := f.

(** ** [needle in haystack] on bytes *)

Fixpoint starts_with (prefix s : bytes) : bool :=
  match prefix, s with
  | [], _ => true
  | _ :: _, [] => false
  | a :: prefix', b :: s' => Byte.eqb a b && starts_with prefix' s'
  end.

Fixpoint contains (needle haystack : bytes) : bool :=
  starts_with needle haystack ||
  match haystack with
  | [] => false
  | _ :: haystack' => contains needle haystack'
  end.

(** ** is_binary_file *)

Definition is_binary_file (w : world) (filepath : pystr) : bool :=
  match (f <- open_ w filepath ;;
         let chunk := read_n 1024 f in
         Ok (contains [x00] chunk)) with
  | Ok b => b
  | Raise _ => true
  end.

(** ** base64.b64encode *)

Definition b64_alphabet : bytes :=
  list_byte_of_string
    "ABCDEFGHIJKLMNOPQRSTUVWXYZabcdefghijklmnopqrstuvwxyz0123456789+/".

Definition b64_char (i : N) : byte := nth (N.to_nat i) b64_alphabet "="%byte.

Definition b64_pad : byte := "="%byte.

(** The four sextets of a group of three bytes. *)
Definition sextet1 (a : N) : N := N.shiftr a 2.
Definition sextet2 (a b : N) : N :=
  N.lor (N.shiftl (N.land a 3) 4) (N.shiftr b 4).
Definition sextet3 (b c : N) : N :=
  N.lor (N.shiftl (N.land b 15) 2) (N.shiftr c 6).
Definition sextet4 (c : N) : N := N.land c 63.

(** Three bytes make four letters; one or two trailing bytes are padded
    with zero bits and the group is completed with [=]. *)
Fixpoint b64encode (s : bytes) : bytes :=
  match s with
  | [] => []
  | [x] =>
      let a := Byte.to_N x in
      [b64_char (sextet1 a);
       b64_char (N.shiftl (N.land a 3) 4);
       b64_pad; b64_pad]
  | [x; y] =>
      let a := Byte.to_N x in
      let b := Byte.to_N y in
      [b64_char (sextet1 a);
       b64_char (sextet2 a b);
       b64_char (N.shiftl (N.land b 15) 2);
       b64_pad]
  | x :: y :: z :: s' =>
      let a := Byte.to_N x in
      let b := Byte.to_N y in
      let c := Byte.to_N z in
      b64_char (sextet1 a)
      :: b64_char (sextet2 a b)
      :: b64_char (sextet3 b c)
      :: b64_char (sextet4 c)
      :: b64encode s'
  end.

(** ** UTF-8 decoding, [errors='strict'] and [errors='replace'] *)

Inductive error_handler : Type := Strict | Replace.

Definition REPLACEMENT : codepoint := 65533%N.

Definition is_continuation (b : N) : bool := ((128 <=? b) && (b <? 192))%N.

(** The decoder of CPython.  An invalid start byte costs one byte; an
    invalid continuation costs the bytes before it; a sequence cut by the
    end of the input costs all that is left.  Under [Replace] each of these
    becomes one U+FFFD and decoding resumes after it; under [Strict] the
    first one raises (the message keeps the reason only, not the byte and
    its position). *)
Fixpoint utf8_decode (errors : error_handler) (s : bytes) : result pystr :=
  let emit (c : codepoint) (r : result pystr) : result pystr :=
    tl <- r ;; Ok (c :: tl) in
  let invalid (reason : string) (r : result pystr) : result pystr :=
    match errors with
    | Strict => Raise (Exception (lit reason))
    | Replace => emit REPLACEMENT r
    end in
  match s with
  | [] => Ok []
  | x0 :: t0 =>
    let b0 := Byte.to_N x0 in
    if (b0 <? 128)%N then emit b0 (utf8_decode errors t0)
    else if (b0 <? 194)%N then
      invalid "invalid start byte" (utf8_decode errors t0)
    else if (b0 <? 224)%N then
      match t0 with
      | [] => invalid "unexpected end of data" (Ok [])
      | x1 :: t1 =>
        let b1 := Byte.to_N x1 in
        if negb (is_continuation b1) then
          invalid "invalid continuation byte" (utf8_decode errors t0)
        else emit (N.shiftl b0 6 + b1 - (N.shiftl 192 6 + 128))%N
                  (utf8_decode errors t1)
      end
    else if (b0 <? 240)%N then
      match t0 with
      | [] => invalid "unexpected end of data" (Ok [])
      | x1 :: t1 =>
        let b1 := Byte.to_N x1 in
        if negb (is_continuation b1)
           || (if (b1 <? 160)%N then (b0 =? 224)%N else (b0 =? 237)%N) then
          invalid "invalid continuation byte" (utf8_decode errors t0)
        else
          match t1 with
          | [] => invalid "unexpected end of data" (Ok [])
          | x2 :: t2 =>
            let b2 := Byte.to_N x2 in
            if negb (is_continuation b2) then
              invalid "invalid continuation byte" (utf8_decode errors t1)
            else emit (N.shiftl b0 12 + N.shiftl b1 6 + b2
                       - (N.shiftl 224 12 + N.shiftl 128 6 + 128))%N
                      (utf8_decode errors t2)
          end
      end
    else if (b0 <? 245)%N then
      match t0 with
      | [] => invalid "unexpected end of data" (Ok [])
      | x1 :: t1 =>
        let b1 := Byte.to_N x1 in
        if negb (is_continuation b1)
           || (if (b1 <? 144)%N then (b0 =? 240)%N else (b0 =? 244)%N) then
          invalid "invalid continuation byte" (utf8_decode errors t0)
        else
          match t1 with
          | [] => invalid "unexpected end of data" (Ok [])
          | x2 :: t2 =>
            let b2 := Byte.to_N x2 in
            if negb (is_continuation b2) then
              invalid "invalid continuation byte" (utf8_decode errors t1)
            else
              match t2 with
              | [] => invalid "unexpected end of data" (Ok [])
              | x3 :: t3 =>
                let b3 := Byte.to_N x3 in
                if negb (is_continuation b3) then
                  invalid "invalid continuation byte" (utf8_decode errors t2)
                else emit (N.shiftl b0 18 + N.shiftl b1 12 + N.shiftl b2 6 + b3
                           - (N.shiftl 240 18 + N.shiftl 128 12
                              + N.shiftl 128 6 + 128))%N
                          (utf8_decode errors t3)
              end
          end
      end
    else invalid "invalid start byte" (utf8_decode errors t0)
  end.

(** [bytes.decode('utf-8')]. *)
Definition decode_utf8 (s : bytes) : result pystr := utf8_decode Strict s.

(** ** Text mode: universal newlines *)

(** A file opened with [open(p, 'r')] has [newline=None]: on reading, the
    line endings CR LF and CR become LF. *)
Fixpoint translate_newlines (s : pystr) : pystr :=
  match s with
  | [] => []
  | c :: s' =>
      if (c =? CR)%N then
        LF :: match s' with
              | [] => []
              | d :: s'' =>
                  if (d =? LF)%N then translate_newlines s''
                  else translate_newlines s'
              end
      else c :: translate_newlines s'
  end.

(** [f.read()] on a handle opened with
    [open(p, 'r', encoding='utf-8', errors='replace')]. *)
Definition read_text (f : bytes) : result pystr :=
  text <- utf8_decode Replace f ;;
  Ok (translate_newlines text).

(** ** read_file_content *)

Definition BINARY_MARKER : pystr := lit "[BINARY FILE - BASE64 ENCODED]" ++ [LF].

Definition read_file_content (w : world) (filepath : pystr) : pystr :=
  match
    (if is_binary_file w filepath then
       f <- open_ w filepath ;;
       content <- decode_utf8 (b64encode (read_all f)) ;;
       Ok (BINARY_MARKER ++ content)
     else
       f <- open_ w filepath ;;
       read_text f)
  with
  | Ok s => s
  | Raise e => lit "[ERROR READING FILE: " ++ exn_str e ++ lit "]"
  end.

(** ** UTF-8 encoding, [errors='strict'] *)

Definition byte_of_N (n : N) : byte :=
  match Byte.of_N n with
  | Some b => b
  | None => x00
  end.

(** What the output file, opened with [encoding='utf-8'], does to the text
    written to it.  Surrogates cannot be encoded (the message keeps the
    reason only).  A Python string holds no code point above U+10FFFF; the
    last branch keeps the function total. *)
Fixpoint utf8_encode (s : pystr) : result bytes :=
  match s with
  | [] => Ok []
  | c :: s' =>
      if (c <? 128)%N then
        tl <- utf8_encode s' ;; Ok (byte_of_N c :: tl)
      else if (c <? 2048)%N then
        tl <- utf8_encode s' ;;
        Ok (byte_of_N (N.lor 192 (N.shiftr c 6))
            :: byte_of_N (N.lor 128 (N.land c 63)) :: tl)
      else if (c <? 65536)%N then
        if (55296 <=? c)%N && (c <=? 57343)%N then
          Raise (Exception (lit "surrogates not allowed"))
        else
          tl <- utf8_encode s' ;;
          Ok (byte_of_N (N.lor 224 (N.shiftr c 12))
              :: byte_of_N (N.lor 128 (N.land (N.shiftr c 6) 63))
              :: byte_of_N (N.lor 128 (N.land c 63)) :: tl)
      else if (c <? 1114112)%N then
        tl <- utf8_encode s' ;;
        Ok (byte_of_N (N.lor 240 (N.shiftr c 18))
            :: byte_of_N (N.lor 128 (N.land (N.shiftr c 12) 63))
            :: byte_of_N (N.lor 128 (N.land (N.shiftr c 6) 63))
            :: byte_of_N (N.lor 128 (N.land c 63)) :: tl)
      else Raise (Exception (lit "character out of range"))
  end.

(** ** json.dump(files_data, f, indent=2, ensure_ascii=False) *)

Record FileRecord : Type := {
  path : pystr;
  content : pystr
}.

Definition QUOTE : codepoint := 34%N.
Definition BACKSLASH : codepoint := 92%N.

Definition hex_digit (n : N) : codepoint :=
  nth (N.to_nat n) (lit "0123456789abcdef") 48%N.

(** The escapes of [json.encoder] when [ensure_ascii] is false: the quote,
    the backslash and the control characters; everything else is literal. *)
Definition escape (c : codepoint) : pystr :=
  if (c =? QUOTE)%N then [BACKSLASH; QUOTE]
  else if (c =? BACKSLASH)%N then [BACKSLASH; BACKSLASH]
  else if (c =? 10)%N then BACKSLASH :: lit "n"
  else if (c =? 13)%N then BACKSLASH :: lit "r"
  else if (c =? 9)%N then BACKSLASH :: lit "t"
  else if (c =? 8)%N then BACKSLASH :: lit "b"
  else if (c =? 12)%N then BACKSLASH :: lit "f"
  else if (c <? 32)%N then
    BACKSLASH :: lit "u00" ++ [hex_digit (N.shiftr c 4); hex_digit (N.land c 15)]
  else [c].

Definition encode_basestring (s : pystr) : pystr :=
  QUOTE :: flat_map escape s ++ [QUOTE].

Fixpoint join (sep : pystr) (parts : list pystr) : pystr :=
  match parts with
  | [] => []
  | [p] => p
  | p :: parts' => p ++ sep ++ join sep parts'
  end.

(** One dict of the list, at nesting level 1. *)
Definition dumps_record (r : FileRecord) : pystr :=
  lit "{" ++ LF :: lit "    "
  ++ encode_basestring (lit "path") ++ lit ": " ++ encode_basestring (path r)
  ++ lit "," ++ LF :: lit "    "
  ++ encode_basestring (lit "content") ++ lit ": "
  ++ encode_basestring (content r)
  ++ LF :: lit "  " ++ lit "}".

Definition dumps (files_data : list FileRecord) : pystr :=
  match files_data with
  | [] => lit "[]"
  | _ =>
      lit "[" ++ LF :: lit "  "
      ++ join (lit "," ++ LF :: lit "  ") (map dumps_record files_data)
      ++ LF :: lit "]"
  end.

(** ** The script's effects: console and output file *)

Record state : Type := {
  console : list pystr;
  output_file : option bytes
}.

Definition initial : state := {| console := []; output_file := None |}.

Definition M (A : Type) : Type := state -> result (A * state).

Definition ret {A} (a : A) : M A := fun s => Ok (a, s).

Definition bindM {A B} (m : M A) (k : A -> M B) : M B :=
  fun s => match m s with
           | Ok (a, s') => k a s'
           | Raise e => Raise e
           end.

Definition lift {A} (r : result A) : M A :=
  fun s => match r with
           | Ok a => Ok (a, s)
           | Raise e => Raise e
           end.

Declare Scope io_scope.
Delimit Scope io_scope with io.
Notation "x <- c ;; k" := (bindM c (fun x => k))
  (at level 61, c at next level, right associativity) : io_scope.
Notation "c ;;; k" := (bindM c (fun _ => k))
  (at level 61, right associativity) : io_scope.

(** [print(line)]. *)
Definition print (line : pystr) : M unit :=
  fun s => Ok (tt, {| console := console s ++ [line];
                      output_file := output_file s |}).

(** [f.write] on the output file; on POSIX the text layer leaves LF as it is. *)
Definition write_output (text : pystr) : M unit :=
  fun s => match utf8_encode text with
           | Ok data => Ok (tt, {| console := console s;
                                   output_file := Some data |})
           | Raise e => Raise e
           end.

(** [str(n)] for a length or an index. *)
Definition str_of_nat (n : nat) : pystr :=
  lit (NilEmpty.string_of_uint (Nat.to_uint n)).

(** ** main *)

Definition progress (i total : nat) (what : string) (file_path : pystr) : pystr :=
  lit "[" ++ str_of_nat i ++ lit "/" ++ str_of_nat total ++ lit "] "
  ++ lit what ++ file_path.

(** The [for] loop over [enumerate(git_files, 1)]: [i] is the index of the
    head of [rest], [files_data] the list built so far. *)
Fixpoint process (w : world) (total i : nat) (rest : list pystr)
    (files_data : list FileRecord) : M (list FileRecord) :=
  match rest with
  | [] => ret files_data
  | file_path :: rest' =>
      (if exists_ w file_path then
         let content := read_file_content w file_path in
         let files_data :=
           files_data ++ [{| path := file_path; content := content |}] in
         print (progress i total "Added: " file_path) ;;;
         process w total (S i) rest' files_data
       else
         print (progress i total "Skipped (not found): " file_path) ;;;
         process w total (S i) rest' files_data)%io
  end.

Definition main (w : world) : M unit :=
  (lift (chdir w) ;;;
   git_files <- lift (get_git_files w) ;;
   print (lit "Processing " ++ str_of_nat (List.length git_files)
          ++ lit " files...") ;;;
   files_data <- process w (List.length git_files) 1 git_files [] ;;
   lift (create_output w) ;;;
   write_output (dumps files_data) ;;;
   print (LF :: lit "Created JSON file with "
          ++ str_of_nat (List.length files_data) ++ lit " files") ;;;
   print (lit "File saved to: /home/ubuntu/files_to_push.json"))%io.

(** ** Base64 decoding (RFC 4648), to state the round trip *)

Definition b64_index (c : codepoint) : option N :=
  if (65 <=? c)%N && (c <=? 90)%N then Some (c - 65)%N
  else if (97 <=? c)%N && (c <=? 122)%N then Some (c - 71)%N
  else if (48 <=? c)%N && (c <=? 57)%N then Some (c + 4)%N
  else if (c =? 43)%N then Some 62%N
  else if (c =? 47)%N then Some 63%N
  else None.

Definition PAD : codepoint := 61%N.

(** Groups of four characters; only the last group may be padded. *)
Fixpoint b64decode (s : pystr) : option bytes :=
  match s with
  | [] => Some []
  | c1 :: c2 :: c3 :: c4 :: s' =>
      match b64_index c1, b64_index c2 with
      | Some i1, Some i2 =>
          let x := byte_of_N (N.lor (N.shiftl i1 2) (N.shiftr i2 4)) in
          if (c3 =? PAD)%N then
            if (c4 =? PAD)%N then
              match s' with [] => Some [x] | _ => None end
            else None
          else
            match b64_index c3 with
            | Some i3 =>
                let y := byte_of_N (N.lor (N.shiftl (N.land i2 15) 4)
                                          (N.shiftr i3 2)) in
                if (c4 =? PAD)%N then
                  match s' with [] => Some [x; y] | _ => None end
                else
                  match b64_index c4 with
                  | Some i4 =>
                      let z := byte_of_N (N.lor (N.shiftl (N.land i3 3) 6) i4) in
                      match b64decode s' with
                      | Some tl => Some (x :: y :: z :: tl)
                      | None => None
                      end
                  | None => None
                  end
            | None => None
            end
      | _, _ => None
      end
  | _ => None
  end.

(** ** Worlds used in the examples *)

Definition ascii_bytes (s : string) : bytes := list_byte_of_string s.

Definition enoent : pystr := lit "[Errno 2] No such file or directory".

(** The run of section 8 of the specification: [a.txt] holds [hello],
    [b.bin] holds the bytes 0 and 1. *)
Definition demo_disk (p : pystr) : node :=
  if pystr_eqb p (lit "a.txt") then Regular (ascii_bytes "hello")
  else if pystr_eqb p (lit "b.bin") then Regular [x00; x01]
  else Missing enoent.

Definition demo_world : world := {|
  chdir := Ok tt;
  run_git_ls_files :=
    Ok {| returncode := 0;
          stdout := lit "a.txt" ++ LF :: lit "b.bin" ++ [LF] |};
  disk := demo_disk;
  create_output := Ok tt
|}.

(** git exits with status 128 outside a repository. *)
Definition git_fatal_world : world := {|
  chdir := Ok tt;
  run_git_ls_files := Ok {| returncode := 128; stdout := [] |};
  disk := fun _ => Missing enoent;
  create_output := Ok tt
|}.

(** No git executable: [subprocess.run] itself raises. *)
Definition no_git_world : world := {|
  chdir := Ok tt;
  run_git_ls_files := Raise (Exception enoent);
  disk := fun _ => Missing enoent;
  create_output := Ok tt
|}.

(** A directory tracked as a submodule, a file with a lone carriage return,
    an empty file, and a text file that spells out a binary record. *)
Definition eisdir : pystr := lit "[Errno 21] Is a directory: 'vendor'".

Definition odd_disk (p : pystr) : node :=
  if pystr_eqb p (lit "vendor") then Unreadable eisdir
  else if pystr_eqb p (lit "cr.txt") then Regular [x0d]
  else if pystr_eqb p (lit "empty") then Regular []
  else if pystr_eqb p (lit "fake.txt") then
    Regular (ascii_bytes "[BINARY FILE - BASE64 ENCODED]" ++ [x0a]
             ++ ascii_bytes "AAE=")
  else if pystr_eqb p (lit "real.bin") then Regular [x00; x01]
  else if pystr_eqb p (lit "oops.txt") then
    Regular (ascii_bytes "[ERROR READING FILE: [Errno 21] Is a directory: 'vendor']")
  else Missing enoent.

Definition odd_world : world := {|
  chdir := Ok tt;
  run_git_ls_files :=
    Ok {| returncode := 0;
          stdout := lit "vendor" ++ LF :: lit "gone" ++ LF :: lit "empty"
                    ++ LF :: lit "cr.txt" ++ [LF] |};
  disk := odd_disk;
  create_output := Ok tt
|}.

(** ** Vocabulary of the statements *)

(** [s.startswith(prefix)]. *)
Fixpoint startswith (prefix s : pystr) : bool :=
  match prefix, s with
  | [], _ => true
  | _ :: _, [] => false
  | a :: prefix', b :: s' => (a =? b)%N && startswith prefix' s'
  end.

(** The listing command ran and exited with a nonzero status, or could not
    be run at all. *)
Definition enumeration_failed (w : world) : Prop :=
  match run_git_ls_files w with
  | Ok r => returncode r <> 0%Z
  | Raise _ => True
  end.

Definition ERROR_PLACEHOLDER (e : exn) : pystr :=
  lit "[ERROR READING FILE: " ++ exn_str e ++ lit "]".

(** The records of a list of paths, one per path that exists, in order. *)
Definition record_of (w : world) (p : pystr) : FileRecord :=
  {| path := p; content := read_file_content w p |}.

Definition records (w : world) (paths : list pystr) : list FileRecord :=
  map (record_of w) (filter (exists_ w) paths).

(** The progress lines of the loop, from index [i] on. *)
Fixpoint notices (w : world) (total i : nat) (paths : list pystr) : list pystr :=
  match paths with
  | [] => []
  | p :: paths' =>
      progress i total
        (if exists_ w p then "Added: " else "Skipped (not found): ") p
      :: notices w total (S i) paths'
  end.

(** The first line and the last two lines of the console. *)
Definition header (git_files : list pystr) : pystr :=
  lit "Processing " ++ str_of_nat (List.length git_files) ++ lit " files...".

Definition trailer (files_data : list FileRecord) : list pystr :=
  [LF :: lit "Created JSON file with "
      ++ str_of_nat (List.length files_data) ++ lit " files";
   lit "File saved to: /home/ubuntu/files_to_push.json"].

(** The final state of the run in [odd_world]. *)
Definition odd_final : state :=
  match main odd_world initial with
  | Ok (_, s) => s
  | Raise _ => initial
  end.

(** [demo_world] with one more file on the disk, which git does not list. *)
Definition demo_world_untracked : world := {|
  chdir := Ok tt;
  run_git_ls_files := run_git_ls_files demo_world;
  disk := fun p => if pystr_eqb p (lit "notes.txt")
                   then Regular (ascii_bytes "draft")
                   else demo_disk p;
  create_output := Ok tt
|}.

(** A listing that is not sorted and names [b.bin] twice. *)
Definition dup_world : world := {|
  chdir := Ok tt;
  run_git_ls_files :=
    Ok {| returncode := 0;
          stdout := lit "b.bin" ++ LF :: lit "a.txt" ++ LF :: lit "b.bin"
                    ++ [LF] |};
  disk := demo_disk;
  create_output := Ok tt
|}.

Definition dup_final : state :=
  match main dup_world initial with
  | Ok (_, s) => s
  | Raise _ => initial
  end.

(** To write JSON text in a literal: every apostrophe stands for a quote. *)
Definition requote (s : pystr) : pystr :=
  map (fun c => if (c =? 39)%N then QUOTE else c) s.

(** What a run leaves in the output file, or the exception that ended it. *)
Definition output_of (r : result (unit * state)) : result (option bytes) :=
  match r with
  | Ok (_, s) => Ok (output_file s)
  | Raise e => Raise e
  end.

(** A Unicode scalar value: a code point that is not a surrogate. *)
Definition is_scalar (c : codepoint) : bool :=
  ((c <? 55296) || (57343 <? c) && (c <? 1114112))%N.


(** The numbers below [n], to check a property of bytes or sextets case by
    case. *)
Fixpoint below (n : nat) : list N :=
  match n with
  | O => []
  | S k => N.of_nat k :: below k
  end.

(** What two bytes must satisfy for a group to decode to its bytes:
    the sextets are below 64 and the shifts of the decoder undo those of
    the encoder. *)
Definition pair_check (a b : N) : bool :=
  ((sextet1 a <? 64) && (sextet2 a b <? 64) && (sextet3 a b <? 64)
   && (sextet4 a <? 64)
   && (N.shiftl (N.land a 3) 4 <? 64) && (N.shiftl (N.land a 15) 2 <? 64)
   && (N.lor (N.shiftl (sextet1 a) 2) (N.shiftr (sextet2 a b) 4) =? a)
   && (N.lor (N.shiftl (sextet1 a) 2)
             (N.shiftr (N.shiftl (N.land a 3) 4) 4) =? a)
   && (N.land (sextet2 a b) 15 =? N.shiftr b 4)
   && (N.shiftr (sextet3 a b) 2 =? N.land a 15)
   && (N.shiftr (N.shiftl (N.land a 15) 2) 2 =? N.land a 15)
   && (N.lor (N.shiftl (N.shiftr a 4) 4) (N.land a 15) =? a)
   && (N.lor (N.shiftl (N.land (sextet3 a b) 3) 6) (sextet4 b) =? b))%N.

(** ** Vocabulary of the further properties *)

(** A path as the enumerator returns it: not empty, no white space at
    either end, no newline inside. *)
Definition is_clean (p : pystr) : Prop :=
  p <> [] /\ strip p = p /\ ~ In LF p.

(** What [git ls-files] prints for a list of paths: one per line. *)
Definition listing (paths : list pystr) : pystr :=
  flat_map (fun p => p ++ [LF]) paths.

(** Reading back what [encode_basestring] writes: the characters of a JSON
    string up to its closing quote, with the escapes the encoder uses, and
    what follows the quote. *)
Definition hex_value (c : codepoint) : option N :=
  if (48 <=? c)%N && (c <=? 57)%N then Some (c - 48)%N
  else if (97 <=? c)%N && (c <=? 102)%N then Some (c - 87)%N
  else None.

Definition consume (c : codepoint) (r : option (pystr * pystr))
    : option (pystr * pystr) :=
  match r with
  | Some (s, rest) => Some (c :: s, rest)
  | None => None
  end.

Fixpoint parse_chars (s : pystr) : option (pystr * pystr) :=
  match s with
  | [] => None
  | c :: s' =>
      if (c =? QUOTE)%N then Some ([], s')
      else if (c =? BACKSLASH)%N then
        match s' with
        | [] => None
        | e :: s'' =>
            if (e =? QUOTE)%N then consume QUOTE (parse_chars s'')
            else if (e =? BACKSLASH)%N then consume BACKSLASH (parse_chars s'')
            else if (e =? 110)%N then consume 10%N (parse_chars s'')
            else if (e =? 114)%N then consume 13%N (parse_chars s'')
            else if (e =? 116)%N then consume 9%N (parse_chars s'')
            else if (e =? 98)%N then consume 8%N (parse_chars s'')
            else if (e =? 102)%N then consume 12%N (parse_chars s'')
            else if (e =? 117)%N then
              match s'' with
              | h1 :: h2 :: h3 :: h4 :: s3 =>
                  match hex_value h1, hex_value h2, hex_value h3, hex_value h4 with
                  | Some v1, Some v2, Some v3, Some v4 =>
                      consume (((v1 * 16 + v2) * 16 + v3) * 16 + v4)%N
                              (parse_chars s3)
                  | _, _, _, _ => None
                  end
              | _ => None
              end
            else None
        end
      else consume c (parse_chars s')
  end.

(** [expect prefix s]: what follows [prefix] in [s]. *)
Fixpoint expect (prefix s : pystr) : option pystr :=
  match prefix, s with
  | [], _ => Some s
  | _ :: _, [] => None
  | a :: prefix', b :: s' => if (a =? b)%N then expect prefix' s' else None
  end.

(** The layout of one dict of the dump around its two strings. *)
Definition RECORD_OPEN : pystr :=
  lit "{" ++ LF :: lit "    "
  ++ encode_basestring (lit "path") ++ lit ": " ++ [QUOTE].
Definition RECORD_MID : pystr :=
  lit "," ++ LF :: lit "    "
  ++ encode_basestring (lit "content") ++ lit ": " ++ [QUOTE].
Definition RECORD_CLOSE : pystr := LF :: lit "  " ++ lit "}".

(** Reading back one dict of the dump. *)
Definition parse_record (s : pystr) : option (FileRecord * pystr) :=
  match expect RECORD_OPEN s with
  | None => None
  | Some s1 =>
    match parse_chars s1 with
    | None => None
    | Some (p, s2) =>
      match expect RECORD_MID s2 with
      | None => None
      | Some s3 =>
        match parse_chars s3 with
        | None => None
        | Some (c, s4) =>
          match expect RECORD_CLOSE s4 with
          | None => None
          | Some s5 => Some ({| path := p; content := c |}, s5)
          end
        end
      end
    end
  end.

(** The separator between two dicts of the dump and the end of the dump. *)
Definition ITEM_SEP : pystr := lit "," ++ LF :: lit "  ".
Definition DUMP_END : pystr := LF :: lit "]".


(** * Properties *)

(** ** The enumerator *)

Lemma split_nonempty sep s : split sep s <> [].
Proof.
  destruct s as [|c s]; simpl; [discriminate|].
  destruct (N.eqb c sep); [discriminate|].
  destruct (split sep s); discriminate.
Qed.

Lemma get_git_files_nonzero w r :
  run_git_ls_files w = Ok r -> returncode r <> 0%Z -> get_git_files w = Ok [].
Proof.
  intros Hrun Hrc. unfold get_git_files. rewrite Hrun. simpl.
  destruct (Z.eqb_spec (returncode r) 0); [contradiction|reflexivity].
Qed.

Lemma get_git_files_raises w e :
  run_git_ls_files w = Raise e -> get_git_files w = Raise e.
Proof. intros Hrun. unfold get_git_files. now rewrite Hrun. Qed.

(** C1, as the code has it: when the listing command runs and exits with a
    nonzero status the enumerator returns the empty list and raises nothing;
    when [subprocess.run] itself raises, nothing catches the exception and it
    reaches the caller. *)
Theorem get_git_files_on_failure (w : world) (H : enumeration_failed w) :
  get_git_files w =
  match run_git_ls_files w with
  | Ok _ => Ok []
  | Raise e => Raise e
  end.
Proof.
  unfold enumeration_failed in H.
  destruct (run_git_ls_files w) as [r|e] eqn:Hrun.
  - now apply get_git_files_nonzero with r.
  - now apply get_git_files_raises.
Qed.

Lemma get_git_files_on_failure_witness :
  enumeration_failed git_fatal_world /\ get_git_files git_fatal_world = Ok [].
Proof.
  assert (H : enumeration_failed git_fatal_world) by (simpl; discriminate).
  split; [exact H|].
  exact (get_git_files_on_failure git_fatal_world H).
Defined.

(** C1 as stated fails when the invocation itself fails: without git the
    enumerator raises instead of returning the empty list. *)
Lemma get_git_files_invocation_failure :
  enumeration_failed no_git_world /\
  get_git_files no_git_world = Raise (Exception enoent) /\
  get_git_files no_git_world <> Ok [].
Proof.
  split; [exact I|]. split; [reflexivity|discriminate].
Qed.

(** ** The classifier *)

Lemma contains_byte_In b s : contains [b] s = true <-> In b s.
Proof.
  induction s as [|c s IH]; simpl.
  - split; [discriminate|contradiction].
  - rewrite andb_true_r, orb_true_iff, IH. split.
    + intros [Heq|Hin]; [left; symmetry; now apply Byte.byte_dec_bl|now right].
    + intros [Heq|Hin]; [left; now apply Byte.byte_dec_lb|now right].
Qed.

Lemma is_binary_file_regular w p data :
  disk w p = Regular data ->
  is_binary_file w p = contains [x00] (firstn 1024 data).
Proof. intros Hd. unfold is_binary_file, open_. now rewrite Hd. Qed.

Lemma is_binary_file_raises w p e :
  open_ w p = Raise e -> is_binary_file w p = true.
Proof. intros Ho. unfold is_binary_file. now rewrite Ho. Qed.

Lemma open_regular w p data : open_ w p = Ok data <-> disk w p = Regular data.
Proof.
  unfold open_. destruct (disk w p); split; intros H;
    solve [congruence | discriminate].
Qed.

(** C2: when the file opens, it is binary exactly when a null byte occurs
    among its first 1024 bytes, the only bytes read; when opening raises,
    it is binary. *)
Theorem is_binary_file_spec (w : world) (filepath : pystr) :
  match open_ w filepath with
  | Ok data =>
      is_binary_file w filepath = true <-> In x00 (read_n 1024 data)
  | Raise _ => is_binary_file w filepath = true
  end.
Proof.
  destruct (open_ w filepath) as [data|e] eqn:Ho.
  - apply open_regular in Ho.
    rewrite (is_binary_file_regular _ _ Ho). apply contains_byte_In.
  - now apply is_binary_file_raises with e.
Qed.

(** Bytes past the window do not matter. *)
Lemma is_binary_file_window w w' p p' data data' :
  disk w p = Regular data -> disk w' p' = Regular data' ->
  firstn 1024 data = firstn 1024 data' ->
  is_binary_file w p = is_binary_file w' p'.
Proof.
  intros H H' Hw.
  rewrite (is_binary_file_regular _ _ H), (is_binary_file_regular _ _ H').
  now rewrite Hw.
Qed.

(** ** Base64 *)

Lemma In_below n x : (x < N.of_nat n)%N -> In x (below n).
Proof.
  induction n as [|k IH]; intros Hx; [lia|]. simpl.
  destruct (N.eq_dec x (N.of_nat k)) as [->|Hne]; [now left|right].
  apply IH. lia.
Qed.

Lemma forallb_below (P : N -> bool) n :
  forallb P (below n) = true ->
  forall x, (x < N.of_nat n)%N -> P x = true.
Proof.
  intros H x Hx. rewrite forallb_forall in H. apply H. now apply In_below.
Qed.

Lemma forallb2_below (P : N -> N -> bool) n m :
  forallb (fun a => forallb (P a) (below m)) (below n) = true ->
  forall a b, (a < N.of_nat n)%N -> (b < N.of_nat m)%N -> P a b = true.
Proof.
  intros H a b Ha Hb.
  apply (forallb_below (P a) m); [|exact Hb].
  now apply (forallb_below (fun a => forallb (P a) (below m)) n).
Qed.

Lemma to_N_lt x : (Byte.to_N x < N.of_nat 256)%N.
Proof. pose proof (Byte.to_N_bounded x). lia. Qed.

Lemma byte_of_to_N x : byte_of_N (Byte.to_N x) = x.
Proof. unfold byte_of_N. now rewrite Byte.of_to_N. Qed.

(** Every sextet has its own letter, which is not the padding. *)
Lemma b64_index_char i :
  (i < 64)%N ->
  b64_index (Byte.to_N (b64_char i)) = Some i /\
  (Byte.to_N (b64_char i) =? PAD)%N = false.
Proof.
  intros Hi.
  assert (H : (match b64_index (Byte.to_N (b64_char i)) with
               | Some j => (j =? i)%N
               | None => false
               end && negb (Byte.to_N (b64_char i) =? PAD)%N) = true).
  { apply (forallb_below
             (fun i => match b64_index (Byte.to_N (b64_char i)) with
                       | Some j => (j =? i)%N
                       | None => false
                       end && negb (Byte.to_N (b64_char i) =? PAD)%N) 64);
      [vm_compute; reflexivity|exact Hi]. }
  apply andb_true_iff in H. destruct H as [H1 H2].
  destruct (b64_index (Byte.to_N (b64_char i))) as [j|]; [|discriminate].
  apply N.eqb_eq in H1. subst j. split; [reflexivity|].
  now apply negb_true_iff.
Qed.

Lemma pair_check_all a b :
  (a < N.of_nat 256)%N -> (b < N.of_nat 256)%N -> pair_check a b = true.
Proof.
  apply (forallb2_below pair_check 256 256). vm_compute. reflexivity.
Qed.

Ltac split_check H :=
  unfold pair_check in H;
  repeat (apply andb_true_iff in H; let H' := fresh "C" in destruct H as [H H']);
  repeat match goal with
         | C : (_ <? _)%N = true |- _ => apply N.ltb_lt in C
         | C : (_ =? _)%N = true |- _ => apply N.eqb_eq in C
         end.

Lemma index_letter i :
  (i < 64)%N -> b64_index (Byte.to_N (b64_char i)) = Some i.
Proof. intros Hi. now destruct (b64_index_char Hi). Qed.

Lemma letter_not_pad i :
  (i < 64)%N -> (Byte.to_N (b64_char i) =? PAD)%N = false.
Proof. intros Hi. now destruct (b64_index_char Hi). Qed.

Lemma pad_is_pad : (Byte.to_N b64_pad =? PAD)%N = true.
Proof. reflexivity. Qed.

Lemma b64decode_one x :
  b64decode (map Byte.to_N (b64encode [x])) = Some [x].
Proof.
  pose proof (pair_check_all (to_N_lt x) (to_N_lt x)) as H. split_check H.
  cbn [b64encode map b64decode].
  rewrite !index_letter by assumption.
  rewrite pad_is_pad.
  match goal with C : N.lor _ (N.shiftr (N.shiftl _ _) _) = _ |- _ => rewrite C end.
  now rewrite byte_of_to_N.
Qed.

Lemma b64decode_two x y :
  b64decode (map Byte.to_N (b64encode [x; y])) = Some [x; y].
Proof.
  pose proof (pair_check_all (to_N_lt x) (to_N_lt y)) as H. split_check H.
  pose proof (pair_check_all (to_N_lt y) (to_N_lt y)) as H'. split_check H'.
  cbn [b64encode map b64decode].
  rewrite !index_letter by assumption.
  rewrite pad_is_pad, letter_not_pad by assumption.
  repeat match goal with
         | C : _ = _ |- _ => rewrite C; clear C
         end.
  now rewrite !byte_of_to_N.
Qed.

Lemma b64decode_three x y z s :
  b64decode (map Byte.to_N (b64encode (x :: y :: z :: s))) =
  match b64decode (map Byte.to_N (b64encode s)) with
  | Some tl => Some (x :: y :: z :: tl)
  | None => None
  end.
Proof.
  pose proof (pair_check_all (to_N_lt x) (to_N_lt y)) as H. split_check H.
  pose proof (pair_check_all (to_N_lt y) (to_N_lt z)) as H'. split_check H'.
  pose proof (pair_check_all (to_N_lt z) (to_N_lt z)) as H''. split_check H''.
  cbn [b64encode map b64decode].
  rewrite !index_letter by assumption.
  rewrite !letter_not_pad by assumption.
  repeat match goal with
         | C : _ = _ |- _ => rewrite C; clear C
         end.
  now rewrite !byte_of_to_N.
Qed.

Lemma list_ind3 (A : Type) (P : list A -> Prop) :
  P [] -> (forall x, P [x]) -> (forall x y, P [x; y]) ->
  (forall x y z l, P l -> P (x :: y :: z :: l)) ->
  forall l, P l.
Proof.
  intros H0 H1 H2 H3 l.
  assert (H : P l /\ (forall x, P (x :: l)) /\ (forall x y, P (x :: y :: l))).
  { induction l as [|a l [IH0 [IH1 IH2]]].
    - auto.
    - repeat split; auto. }
  apply H.
Qed.

(** Decoding undoes encoding. *)
Lemma b64decode_b64encode data :
  b64decode (map Byte.to_N (b64encode data)) = Some data.
Proof.
  induction data as [|x|x y|x y z s IH] using list_ind3.
  - reflexivity.
  - apply b64decode_one.
  - apply b64decode_two.
  - rewrite b64decode_three. now rewrite IH.
Qed.

(** The letters and the padding are ASCII. *)
Lemma b64_char_ascii i : (Byte.to_N (b64_char i) <? 128)%N = true.
Proof.
  unfold b64_char.
  assert (H : forallb (fun b => (Byte.to_N b <? 128)%N) ("="%byte :: b64_alphabet) = true)
    by (vm_compute; reflexivity).
  rewrite forallb_forall in H. apply H.
  destruct (nth_in_or_default (N.to_nat i) b64_alphabet "="%byte) as [Hin| ->].
  - now right.
  - now left.
Qed.

Lemma b64encode_ascii data :
  forallb (fun b => (Byte.to_N b <? 128)%N) (b64encode data) = true.
Proof.
  induction data as [|x|x y|x y z s IH] using list_ind3;
    cbn [b64encode forallb]; rewrite ?b64_char_ascii; auto.
Qed.

(** ** UTF-8 *)

Lemma utf8_decode_ascii errors s :
  forallb (fun b => (Byte.to_N b <? 128)%N) s = true ->
  utf8_decode errors s = Ok (map Byte.to_N s).
Proof.
  induction s as [|x s IH]; intros H; [reflexivity|].
  cbn [forallb] in H. apply andb_true_iff in H. destruct H as [Hx Hs].
  cbn [utf8_decode map]. rewrite Hx, (IH Hs). reflexivity.
Qed.

Lemma shiftl_6 a : N.shiftl a 6 = (a * 64)%N.
Proof. now rewrite N.shiftl_mul_pow2. Qed.
Lemma shiftl_12 a : N.shiftl a 12 = (a * 4096)%N.
Proof. now rewrite N.shiftl_mul_pow2. Qed.
Lemma shiftl_18 a : N.shiftl a 18 = (a * 262144)%N.
Proof. now rewrite N.shiftl_mul_pow2. Qed.

Ltac bool_to_prop :=
  repeat match goal with
         | H : negb _ = true |- _ => apply negb_true_iff in H
         | H : negb _ = false |- _ => apply negb_false_iff in H
         | H : (_ || _) = false |- _ =>
             apply orb_false_iff in H; destruct H
         | H : (_ && _) = true |- _ =>
             apply andb_true_iff in H; destruct H
         | H : (if ?c then _ else _) = _ |- _ => destruct c eqn:?
         | H : (_ <? _)%N = true |- _ => apply N.ltb_lt in H
         | H : (_ <? _)%N = false |- _ => apply N.ltb_ge in H
         | H : (_ <=? _)%N = true |- _ => apply N.leb_le in H
         | H : (_ <=? _)%N = false |- _ => apply N.leb_gt in H
         | H : (_ =? _)%N = true |- _ => apply N.eqb_eq in H
         | H : (_ =? _)%N = false |- _ => apply N.eqb_neq in H
         end.

Lemma is_scalar_iff c :
  is_scalar c = true <->
  (c < 55296 \/ (57343 < c /\ c < 1114112))%N.
Proof.
  unfold is_scalar.
  rewrite orb_true_iff, andb_true_iff, !N.ltb_lt. reflexivity.
Qed.

Ltac scalar_head :=
  eexists; split; [reflexivity|]; cbn [forallb];
  repeat match goal with
         | H : forallb is_scalar _ = true |- _ => rewrite H
         end;
  rewrite ?andb_true_r; try reflexivity;
  apply is_scalar_iff; rewrite ?shiftl_6, ?shiftl_12, ?shiftl_18;
  bool_to_prop; lia.

(** With [errors='replace'] the decoder returns, whatever the bytes, and
    what it returns holds scalar values only. *)
Lemma utf8_decode_replace_scalar s :
  exists t, utf8_decode Replace s = Ok t /\ forallb is_scalar t = true.
Proof.
  remember (List.length s) as n eqn:Hn.
  revert s Hn. induction n as [n IH] using lt_wf_ind. intros s Hn.
  assert (IH' : forall s', List.length s' < List.length s ->
                 exists t, utf8_decode Replace s' = Ok t /\ forallb is_scalar t = true).
  { intros s' Hlt. apply (IH (List.length s')); [lia|reflexivity]. }
  clear IH Hn n.
  destruct s as [|x0 t0]; [exists []; now split|].
  cbn [utf8_decode]. unfold is_continuation.
  destruct (IH' t0) as [r0 [E0 S0]]; [simpl; lia|]. rewrite ?E0.
  pose proof (to_N_lt x0) as B0. set (b0 := Byte.to_N x0) in *.
  destruct (b0 <? 128)%N eqn:C1; [scalar_head|].
  destruct (b0 <? 194)%N eqn:C2; [scalar_head|].
  destruct t0 as [|x1 t1].
  { repeat match goal with
           | |- context [if ?c then _ else _] => destruct c
           end; scalar_head. }
  destruct (IH' t1) as [r1 [E1 S1]]; [simpl; lia|]. rewrite ?E1.
  pose proof (to_N_lt x1) as B1. set (b1 := Byte.to_N x1) in *.
  destruct (b0 <? 224)%N eqn:C3.
  { destruct ((128 <=? b1)%N && (b1 <? 192)%N) eqn:K1; cbn [negb];
      [scalar_head|scalar_head]. }
  destruct t1 as [|x2 t2].
  { repeat match goal with
           | |- context [if ?c then _ else _] => destruct c
           end; cbn [negb orb]; scalar_head. }
  destruct (IH' t2) as [r2 [E2 S2]]; [simpl; lia|]. rewrite ?E2.
  pose proof (to_N_lt x2) as B2. set (b2 := Byte.to_N x2) in *.
  destruct (b0 <? 240)%N eqn:C4.
  { destruct ((128 <=? b1)%N && (b1 <? 192)%N) eqn:K1; cbn [negb orb];
      [|scalar_head].
    destruct (if (b1 <? 160)%N then (b0 =? 224)%N else (b0 =? 237)%N) eqn:K1';
      [scalar_head|].
    destruct ((128 <=? b2)%N && (b2 <? 192)%N) eqn:K2; cbn [negb];
      [scalar_head|scalar_head]. }
  destruct (b0 <? 245)%N eqn:C5; [|scalar_head].
  destruct ((128 <=? b1)%N && (b1 <? 192)%N) eqn:K1; cbn [negb orb];
    [|scalar_head].
  destruct (if (b1 <? 144)%N then (b0 =? 240)%N else (b0 =? 244)%N) eqn:K1';
    [scalar_head|].
  destruct ((128 <=? b2)%N && (b2 <? 192)%N) eqn:K2; cbn [negb];
    [|scalar_head].
  destruct t2 as [|x3 t3]; [scalar_head|].
  destruct (IH' t3) as [r3 [E3 S3]]; [simpl; lia|]. rewrite ?E3.
  pose proof (to_N_lt x3) as B3. set (b3 := Byte.to_N x3) in *.
  destruct ((128 <=? b3)%N && (b3 <? 192)%N) eqn:K3; cbn [negb];
    [scalar_head|scalar_head].
Qed.

(** On bytes that are well-formed UTF-8 nothing is replaced: the two
    handlers return the same text. *)
Lemma utf8_decode_strict_replace s :
  forall t, utf8_decode Strict s = Ok t -> utf8_decode Replace s = Ok t.
Proof.
  remember (List.length s) as n eqn:Hn.
  revert s Hn. induction n as [n IH] using lt_wf_ind. intros s Hn.
  assert (IH' : forall s' t, List.length s' < List.length s ->
                 utf8_decode Strict s' = Ok t -> utf8_decode Replace s' = Ok t).
  { intros s' t Hlt. apply (IH (List.length s')); [lia|reflexivity]. }
  clear IH Hn n.
  destruct s as [|x0 t0]; [trivial|].
  cbn [utf8_decode]. intros t H.
  repeat (cbv beta iota in *;
          match type of H with
          | context [if ?c then _ else _] => destruct c eqn:?
          | context [match ?l with [] => _ | _ :: _ => _ end] => destruct l
          end);
    try discriminate H;
    match type of H with
    | context [utf8_decode Strict ?tk] =>
        let E := fresh "E" in
        destruct (utf8_decode Strict tk) eqn:E; [|discriminate H];
        apply IH' in E; [rewrite E; exact H|simpl; lia]
    end.
Qed.

(** ** The reader *)

Lemma read_file_content_regular w p data :
  disk w p = Regular data ->
  read_file_content w p =
  if contains [x00] (firstn 1024 data)
  then BINARY_MARKER ++ map Byte.to_N (b64encode data)
  else match utf8_decode Replace data with
       | Ok text => translate_newlines text
       | Raise e => ERROR_PLACEHOLDER e
       end.
Proof.
  intros Hd. unfold read_file_content.
  rewrite (is_binary_file_regular _ _ Hd).
  apply open_regular in Hd. rewrite Hd. cbn [bind read_all].
  destruct (contains [x00] (firstn 1024 data)).
  - unfold decode_utf8, read_all.
    rewrite (utf8_decode_ascii Strict _ (b64encode_ascii data)). reflexivity.
  - unfold read_text. destruct (utf8_decode Replace data); reflexivity.
Qed.

Lemma read_file_content_raises w p e :
  open_ w p = Raise e -> read_file_content w p = ERROR_PLACEHOLDER e.
Proof.
  intros Ho. unfold read_file_content.
  rewrite (is_binary_file_raises _ _ Ho), Ho. reflexivity.
Qed.

Lemma is_binary_file_false w p :
  is_binary_file w p = false ->
  exists data, disk w p = Regular data /\
               contains [x00] (firstn 1024 data) = false.
Proof.
  intros Hb. destruct (open_ w p) as [data|e] eqn:Ho.
  - apply open_regular in Ho. exists data. split; [exact Ho|].
    now rewrite <- (is_binary_file_regular _ _ Ho).
  - rewrite (is_binary_file_raises _ _ Ho) in Hb. discriminate.
Qed.

(** C3, as the code has it: a file that opens and is classified as binary
    is returned as the marker line followed by the base64 text of its bytes,
    and decoding that text gives the bytes back. *)
Theorem read_file_content_binary (w : world) (filepath : pystr) (data : bytes)
    (Hopen : open_ w filepath = Ok data)
    (Hbin : is_binary_file w filepath = true) :
  exists payload,
    read_file_content w filepath = BINARY_MARKER ++ payload /\
    payload = map Byte.to_N (b64encode data) /\
    b64decode payload = Some data.
Proof.
  apply open_regular in Hopen.
  exists (map Byte.to_N (b64encode data)). split; [|split].
  - rewrite (read_file_content_regular _ _ Hopen).
    rewrite <- (is_binary_file_regular _ _ Hopen), Hbin. reflexivity.
  - reflexivity.
  - apply b64decode_b64encode.
Qed.

Lemma read_file_content_binary_witness :
  exists payload,
    read_file_content demo_world (lit "b.bin") = BINARY_MARKER ++ payload /\
    payload = map Byte.to_N (b64encode [x00; x01]) /\
    b64decode payload = Some [x00; x01].
Proof.
  apply (@read_file_content_binary demo_world (lit "b.bin") [x00; x01]);
    reflexivity.
Defined.

(** C3 as stated fails for a path whose [open] raises: the classifier
    calls it binary, and the reader returns the error placeholder, which
    does not start with the marker. *)
Lemma read_file_content_binary_unreadable :
  is_binary_file odd_world (lit "vendor") = true /\
  read_file_content odd_world (lit "vendor")
  = ERROR_PLACEHOLDER (Exception eisdir) /\
  startswith BINARY_MARKER (read_file_content odd_world (lit "vendor")) = false.
Proof. repeat split; reflexivity. Qed.

(** C4, as the code has it: a file classified as text opens, its bytes
    decode under [errors='replace'] without raising, to scalar values only
    and to the strict decoding when there is one, and the reader returns
    the decoded text with CR LF and CR turned into LF. *)
Theorem read_file_content_text (w : world) (filepath : pystr)
    (Htext : is_binary_file w filepath = false) :
  exists data text,
    open_ w filepath = Ok data /\
    utf8_decode Replace data = Ok text /\
    forallb is_scalar text = true /\
    (forall t, utf8_decode Strict data = Ok t -> text = t) /\
    read_file_content w filepath = translate_newlines text.
Proof.
  destruct (is_binary_file_false _ _ Htext) as [data [Hd Hc]].
  destruct (utf8_decode_replace_scalar data) as [text [Ht Hs]].
  exists data, text. repeat split; trivial.
  - now apply open_regular.
  - intros t Hstrict. apply utf8_decode_strict_replace in Hstrict. congruence.
  - rewrite (read_file_content_regular _ _ Hd), Hc, Ht. reflexivity.
Qed.

Lemma read_file_content_text_witness :
  exists data text,
    open_ demo_world (lit "a.txt") = Ok data /\
    utf8_decode Replace data = Ok text /\
    forallb is_scalar text = true /\
    (forall t, utf8_decode Strict data = Ok t -> text = t) /\
    read_file_content demo_world (lit "a.txt") = translate_newlines text.
Proof.
  apply (@read_file_content_text demo_world (lit "a.txt")). reflexivity.
Defined.

(** C4 as stated fails for a file with a carriage return: its decoded text
    is CR, the reader returns LF. *)
Lemma read_file_content_text_newline :
  is_binary_file odd_world (lit "cr.txt") = false /\
  open_ odd_world (lit "cr.txt") = Ok [x0d] /\
  utf8_decode Replace [x0d] = Ok [CR] /\
  read_file_content odd_world (lit "cr.txt") = [LF] /\
  pystr_eqb (read_file_content odd_world (lit "cr.txt")) [CR] = false.
Proof. repeat split; reflexivity. Qed.

(** ** The loop *)

Lemma exists_disk w w' p : disk w p = disk w' p -> exists_ w p = exists_ w' p.
Proof. intros H. unfold exists_. now rewrite H. Qed.

Lemma read_file_content_disk w w' p :
  disk w p = disk w' p -> read_file_content w p = read_file_content w' p.
Proof.
  intros H. unfold read_file_content, is_binary_file, open_. now rewrite H.
Qed.

(** The loop never raises: it appends one record per path that exists, in
    order, and prints one line per path. *)
Lemma process_spec w total rest :
  forall i files_data s,
    process w total i rest files_data s =
    Ok (files_data ++ records w rest,
        {| console := console s ++ notices w total i rest;
           output_file := output_file s |}).
Proof.
  induction rest as [|p rest IH]; intros i files_data s.
  - cbn [process notices records filter map]. unfold ret.
    rewrite !app_nil_r. now destruct s.
  - cbn [process notices]. unfold records. cbn [filter].
    destruct (exists_ w p); unfold bindM, print; rewrite IH; cbn [console output_file];
      unfold records; cbn [map]; now rewrite <- !app_assoc.
Qed.

Lemma records_paths w paths : map path (records w paths) = filter (exists_ w) paths.
Proof.
  unfold records. rewrite map_map. cbn [record_of path]. apply map_id.
Qed.

Lemma records_exist w paths :
  Forall (fun r => exists_ w (path r) = true) (records w paths).
Proof.
  apply Forall_forall. intros r Hr.
  assert (Hp : In (path r) (map path (records w paths))) by now apply in_map.
  rewrite records_paths in Hp. now apply filter_In in Hp.
Qed.

Lemma records_agree w w' (R : FileRecord -> FileRecord -> Prop) paths :
  (forall p, In p paths -> exists_ w p = exists_ w' p) ->
  (forall p, In p paths -> exists_ w p = true ->
             R (record_of w p) (record_of w' p)) ->
  Forall2 R (records w paths) (records w' paths).
Proof.
  unfold records. induction paths as [|p paths IH]; intros He Hr.
  - constructor.
  - cbn [filter]. rewrite <- (He p) by now left.
    destruct (exists_ w p) eqn:Hp; cbn [map].
    + constructor.
      * apply Hr; [now left|exact Hp].
      * apply IH; intros; [apply He|apply Hr]; trivial; now right.
    + apply IH; intros; [apply He|apply Hr]; trivial; now right.
Qed.

Lemma Forall2_same (A : Type) (R : A -> A -> Prop) (l : list A) :
  (forall a, R a a) -> Forall2 R l l.
Proof. intros H. induction l; constructor; auto. Qed.

(** C5: when opening a file raises, the reader returns the placeholder
    with the message instead of raising; the loop goes on to the end, and
    in a world that differs at that path only the records of all other
    paths are the same. *)
Theorem read_error_is_contained (w : world) (filepath : pystr) (e : exn)
    (Hopen : open_ w filepath = Raise e) :
  read_file_content w filepath
  = lit "[ERROR READING FILE: " ++ exn_str e ++ lit "]" /\
  forall total i git_files files_data s,
  exists files s',
    process w total i git_files files_data s = Ok (files, s') /\
    forall w',
      (forall p, p <> filepath -> disk w' p = disk w p) ->
      exists_ w' filepath = exists_ w filepath ->
      exists files' s'',
        process w' total i git_files files_data s = Ok (files', s'') /\
        Forall2 (fun r r' => path r = path r' /\
                             (path r <> filepath -> content r = content r'))
                files files'.
Proof.
  split; [now apply read_file_content_raises|].
  intros total i git_files files_data s.
  eexists. eexists. split; [apply process_spec|].
  intros w' Hd He. eexists. eexists. split; [apply process_spec|].
  apply Forall2_app.
  - apply Forall2_same. now split.
  - apply records_agree.
    + intros p _. destruct (list_eq_dec N.eq_dec p filepath) as [->|Hne].
      * now rewrite He.
      * apply exists_disk. symmetry. now apply Hd.
    + intros p _ _. cbn [record_of path content]. split; [reflexivity|].
      intros Hne. apply read_file_content_disk. symmetry. now apply Hd.
Qed.

Lemma read_error_is_contained_witness :
  read_file_content odd_world (lit "vendor")
  = lit "[ERROR READING FILE: " ++ exn_str (Exception eisdir) ++ lit "]" /\
  forall total i git_files files_data s,
  exists files s',
    process odd_world total i git_files files_data s = Ok (files, s') /\
    forall w',
      (forall p, p <> lit "vendor" -> disk w' p = disk odd_world p) ->
      exists_ w' (lit "vendor") = exists_ odd_world (lit "vendor") ->
      exists files' s'',
        process w' total i git_files files_data s = Ok (files', s'') /\
        Forall2 (fun r r' => path r = path r' /\
                             (path r <> lit "vendor" -> content r = content r'))
                files files'.
Proof.
  apply (@read_error_is_contained odd_world (lit "vendor") (Exception eisdir)).
  reflexivity.
Defined.

(** C9: an empty file that opens is text, is read as the empty string, and
    gets a record whose content is the empty string. *)
Theorem empty_file_record (w : world) (filepath : pystr)
    (Hopen : open_ w filepath = Ok []) :
  is_binary_file w filepath = false /\
  read_file_content w filepath = [] /\
  forall total i files_data s,
  exists s',
    process w total i [filepath] files_data s
    = Ok (files_data ++ [{| path := filepath; content := [] |}], s').
Proof.
  apply open_regular in Hopen.
  assert (Hb : is_binary_file w filepath = false)
    by now rewrite (is_binary_file_regular _ _ Hopen).
  assert (Hr : read_file_content w filepath = [])
    by now rewrite (read_file_content_regular _ _ Hopen).
  repeat split; trivial.
  intros total i files_data s. eexists. rewrite process_spec.
  unfold records, exists_. cbn [filter]. rewrite Hopen. cbn [map].
  unfold record_of. rewrite Hr. reflexivity.
Qed.

Lemma empty_file_record_witness :
  is_binary_file odd_world (lit "empty") = false /\
  read_file_content odd_world (lit "empty") = [] /\
  forall total i files_data s,
  exists s',
    process odd_world total i [lit "empty"] files_data s
    = Ok (files_data ++ [{| path := lit "empty"; content := [] |}], s').
Proof.
  apply (@empty_file_record odd_world (lit "empty")). reflexivity.
Defined.

(** C10: the reader is not injective.  A text file that spells out the
    marker line and the base64 text of a binary file is returned as that
    binary file is; a text file that spells out an error placeholder is
    returned as the path whose [open] raises with that message is. *)
Theorem read_file_content_not_injective :
  exists (w : world) (p q : pystr) (t b : bytes),
    open_ w p = Ok t /\ open_ w q = Ok b /\ t <> b /\
    is_binary_file w p = false /\ is_binary_file w q = true /\
    (exists payload,
       utf8_decode Strict t = Ok (BINARY_MARKER ++ payload) /\
       payload = map Byte.to_N (b64encode b) /\
       b64decode payload = Some b) /\
    read_file_content w p = read_file_content w q /\
    exists (p' q' : pystr) (t' : bytes) (e : exn),
      open_ w p' = Ok t' /\ open_ w q' = Raise e /\
      is_binary_file w p' = false /\
      read_file_content w p' = read_file_content w q'.
Proof.
  exists odd_world, (lit "fake.txt"), (lit "real.bin").
  eexists. eexists.
  split; [reflexivity|]. split; [reflexivity|]. split; [discriminate|].
  split; [reflexivity|]. split; [reflexivity|]. split.
  - eexists. split; [reflexivity|]. split; reflexivity.
  - split; [reflexivity|].
    exists (lit "oops.txt"), (lit "vendor"). eexists. eexists.
    split; [reflexivity|]. split; [reflexivity|]. split; reflexivity.
Qed.

(** ** The run *)

(** The run, step by step: each of the four steps that can raise ends it;
    otherwise the file holds the encoded dump of the records. *)
Lemma main_eq w s :
  main w s =
  match chdir w with
  | Raise e => Raise e
  | Ok _ =>
    match get_git_files w with
    | Raise e => Raise e
    | Ok git_files =>
      match create_output w with
      | Raise e => Raise e
      | Ok _ =>
        match utf8_encode (dumps (records w git_files)) with
        | Raise e => Raise e
        | Ok data =>
            Ok (tt, {| console :=
                         console s ++ header git_files
                         :: notices w (List.length git_files) 1 git_files
                         ++ trailer (records w git_files);
                       output_file := Some data |})
        end
      end
    end
  end.
Proof.
  unfold main, bindM, lift.
  destruct (chdir w) as [[]|e]; [|reflexivity].
  destruct (get_git_files w) as [git_files|e]; [|reflexivity].
  unfold print at 1. rewrite process_spec. cbn [app console output_file].
  destruct (create_output w) as [[]|e]; [|reflexivity].
  unfold write_output.
  destruct (utf8_encode (dumps (records w git_files))) as [data|e];
    [|reflexivity].
  unfold print. cbn [console output_file]. unfold header, trailer.
  repeat (rewrite <- app_assoc; cbn [app]). reflexivity.
Qed.

Lemma main_inv w s s' :
  main w s = Ok (tt, s') ->
  exists git_files data,
    get_git_files w = Ok git_files /\
    utf8_encode (dumps (records w git_files)) = Ok data /\
    output_file s' = Some data /\
    console s' = console s ++ header git_files
                 :: notices w (List.length git_files) 1 git_files
                 ++ trailer (records w git_files).
Proof.
  rewrite main_eq.
  destruct (chdir w) as [[]|e]; [|discriminate].
  destruct (get_git_files w) as [git_files|e] eqn:Hg; [|discriminate].
  destruct (create_output w) as [[]|e]; [|discriminate].
  destruct (utf8_encode (dumps (records w git_files))) as [data|e] eqn:Hu;
    [|discriminate].
  intros H. injection H as Hs. subst s'. exists git_files, data.
  repeat split; trivial.
Qed.

Lemma filter_length_negb (A : Type) (f : A -> bool) (l : list A) :
  List.length (filter f l) =
  List.length l - List.length (filter (fun a => negb (f a)) l).
Proof.
  induction l as [|a l IH]; [reflexivity|]. cbn [filter].
  assert (Hle : List.length (filter (fun a => negb (f a)) l) <= List.length l)
    by apply filter_length_le.
  destruct (f a); cbn [negb List.length]; lia.
Qed.

Lemma notices_skip w total paths :
  forall i k p,
    nth_error paths k = Some p -> exists_ w p = false ->
    In (progress (i + k) total "Skipped (not found): " p)
       (notices w total i paths).
Proof.
  induction paths as [|q paths IH]; intros i k p Hk Hp.
  - destruct k; discriminate.
  - destruct k as [|k]; cbn [nth_error] in Hk; cbn [notices].
    + injection Hk as ->. rewrite Hp, Nat.add_0_r. now left.
    + right. replace (i + S k) with (S i + k) by lia. now apply IH.
Qed.

(** C6: in a run that completes, the output file holds the dump of the
    list of records the loop builds; in that list every path exists and no
    missing path has a record, every missing path has its skip line on the
    console, and the length of the list is the number of listed paths minus
    the number of missing ones. *)
Theorem main_skips_missing (w : world) (s s' : state)
    (Hrun : main w s = Ok (tt, s')) :
  exists git_files files_data data,
    get_git_files w = Ok git_files /\
    (forall total i s0, exists s1,
        process w total i git_files [] s0 = Ok (files_data, s1)) /\
    utf8_encode (dumps files_data) = Ok data /\
    output_file s' = Some data /\
    Forall (fun r => exists_ w (path r) = true) files_data /\
    (forall p, In p git_files -> exists_ w p = false ->
               ~ In p (map path files_data)) /\
    (forall k p, nth_error git_files k = Some p -> exists_ w p = false ->
                 In (progress (S k) (List.length git_files)
                              "Skipped (not found): " p) (console s')) /\
    List.length files_data =
    List.length git_files
    - List.length (filter (fun p => negb (exists_ w p)) git_files).
Proof.
  destruct (main_inv _ _ Hrun) as [git_files [data [Hg [Hu [Ho Hc]]]]].
  exists git_files, (records w git_files), data.
  repeat split; trivial.
  - intros total i s0. eexists. apply (process_spec w total git_files i [] s0).
  - apply records_exist.
  - intros p _ Hp Hin. rewrite records_paths in Hin.
    apply filter_In in Hin. destruct Hin as [_ Hin]. congruence.
  - intros k p Hk Hp. rewrite Hc. apply in_or_app. right. right.
    apply in_or_app. left. now apply (notices_skip w _ git_files 1 k).
  - rewrite <- (length_map path), records_paths. apply filter_length_negb.
Qed.

Lemma main_skips_missing_witness :
  main odd_world initial = Ok (tt, odd_final) /\
  exists git_files files_data data,
    get_git_files odd_world = Ok git_files /\
    (forall total i s0, exists s1,
        process odd_world total i git_files [] s0 = Ok (files_data, s1)) /\
    utf8_encode (dumps files_data) = Ok data /\
    output_file odd_final = Some data /\
    Forall (fun r => exists_ odd_world (path r) = true) files_data /\
    (forall p, In p git_files -> exists_ odd_world p = false ->
               ~ In p (map path files_data)) /\
    (forall k p, nth_error git_files k = Some p ->
                 exists_ odd_world p = false ->
                 In (progress (S k) (List.length git_files)
                              "Skipped (not found): " p) (console odd_final)) /\
    List.length files_data =
    List.length git_files
    - List.length (filter (fun p => negb (exists_ odd_world p)) git_files).
Proof.
  assert (H : main odd_world initial = Ok (tt, odd_final))
    by (vm_compute; reflexivity).
  split; [exact H|]. exact (main_skips_missing odd_world initial H).
Defined.

Lemma count_occ_filter_true (f : pystr -> bool) (l : list pystr) (p : pystr) :
  f p = true ->
  count_occ (list_eq_dec N.eq_dec) (filter f l) p
  = count_occ (list_eq_dec N.eq_dec) l p.
Proof.
  intros Hp. induction l as [|q l IH]; [reflexivity|]. cbn [filter count_occ].
  destruct (list_eq_dec N.eq_dec q p) as [->|Hne].
  - rewrite Hp. cbn [count_occ].
    destruct (list_eq_dec N.eq_dec p p); [now rewrite IH|contradiction].
  - destruct (f q); [|exact IH]. cbn [count_occ].
    destruct (list_eq_dec N.eq_dec q p); [contradiction|exact IH].
Qed.

(** C7: in a run that completes, the paths of the records the loop builds
    and the run writes are the listed paths that exist, in the order of the
    listing; a path that exists has as many records as the listing names
    it. *)
Theorem main_keeps_order (w : world) (s s' : state)
    (Hrun : main w s = Ok (tt, s')) :
  exists git_files files_data data,
    get_git_files w = Ok git_files /\
    (forall total i s0, exists s1,
        process w total i git_files [] s0 = Ok (files_data, s1)) /\
    utf8_encode (dumps files_data) = Ok data /\
    output_file s' = Some data /\
    map path files_data = filter (exists_ w) git_files /\
    forall p, exists_ w p = true ->
      count_occ (list_eq_dec N.eq_dec) (map path files_data) p
      = count_occ (list_eq_dec N.eq_dec) git_files p.
Proof.
  destruct (main_inv _ _ Hrun) as [git_files [data [Hg [Hu [Ho Hc]]]]].
  exists git_files, (records w git_files), data.
  repeat split; trivial.
  - intros total i s0. eexists. apply (process_spec w total git_files i [] s0).
  - apply records_paths.
  - intros p Hp. rewrite records_paths. now apply count_occ_filter_true.
Qed.

Lemma main_keeps_order_witness :
  main dup_world initial = Ok (tt, dup_final) /\
  exists git_files files_data data,
    get_git_files dup_world = Ok git_files /\
    (forall total i s0, exists s1,
        process dup_world total i git_files [] s0 = Ok (files_data, s1)) /\
    utf8_encode (dumps files_data) = Ok data /\
    output_file dup_final = Some data /\
    map path files_data = filter (exists_ dup_world) git_files /\
    forall p, exists_ dup_world p = true ->
      count_occ (list_eq_dec N.eq_dec) (map path files_data) p
      = count_occ (list_eq_dec N.eq_dec) git_files p.
Proof.
  assert (H : main dup_world initial = Ok (tt, dup_final))
    by (vm_compute; reflexivity).
  split; [exact H|]. exact (main_keeps_order dup_world initial H).
Defined.

Lemma records_ext w w' paths :
  (forall p, In p paths -> disk w p = disk w' p) ->
  records w paths = records w' paths.
Proof.
  unfold records. induction paths as [|p paths IH]; intros H; [reflexivity|].
  cbn [filter]. rewrite <- (exists_disk w w' p) by (apply H; now left).
  assert (IH' : map (record_of w) (filter (exists_ w) paths)
                = map (record_of w') (filter (exists_ w') paths))
    by (apply IH; intros q Hq; apply H; now right).
  destruct (exists_ w p); cbn [map]; [|exact IH'].
  unfold record_of at 1 3.
  rewrite (read_file_content_disk w w' p) by (apply H; now left).
  now rewrite IH'.
Qed.

(** C8: two runs for which git answers the same, the listed paths name the
    same things on disk and the working directory and the output file can
    be opened alike leave the same bytes in the output file (or end with
    the same exception), whatever the console held and whatever else is on
    disk. *)
Theorem main_deterministic (w1 w2 : world) (s1 s2 : state)
    (Hchdir : chdir w1 = chdir w2)
    (Hgit : run_git_ls_files w1 = run_git_ls_files w2)
    (Hout : create_output w1 = create_output w2)
    (Hdisk : forall git_files p,
        get_git_files w1 = Ok git_files -> In p git_files ->
        disk w1 p = disk w2 p) :
  output_of (main w1 s1) = output_of (main w2 s2).
Proof.
  assert (Hg : get_git_files w2 = get_git_files w1)
    by (unfold get_git_files; now rewrite Hgit).
  rewrite !main_eq, <- Hchdir, <- Hout, Hg.
  destruct (chdir w1) as [[]|e]; [|reflexivity].
  destruct (get_git_files w1) as [git_files|e] eqn:Hl; [|reflexivity].
  rewrite <- (records_ext w1 w2 git_files)
    by (intros p Hp; now apply (Hdisk git_files)).
  destruct (create_output w1) as [[]|e]; [|reflexivity].
  destruct (utf8_encode (dumps (records w1 git_files))); reflexivity.
Qed.

Lemma main_deterministic_witness :
  output_of (main demo_world initial)
  = output_of (main demo_world_untracked
                    {| console := [lit "earlier run"];
                       output_file := Some [x00] |}).
Proof.
  apply main_deterministic; try reflexivity.
  intros git_files p Hg Hp. injection Hg as <-.
  destruct Hp as [<-|[<-|[]]]; reflexivity.
Defined.

(** ** The run of section 8 of the specification *)

Example demo_git_files :
  get_git_files demo_world = Ok [lit "a.txt"; lit "b.bin"].
Proof. reflexivity. Qed.

Example demo_records :
  records demo_world [lit "a.txt"; lit "b.bin"]
  = [{| path := lit "a.txt"; content := lit "hello" |};
     {| path := lit "b.bin";
        content := lit "[BINARY FILE - BASE64 ENCODED]" ++ LF :: lit "AAE=" |}].
Proof. reflexivity. Qed.

Example demo_output :
  output_of (main demo_world initial)
  = Ok (Some (map byte_of_N (requote (lit "[
  {
    'path': 'a.txt',
    'content': 'hello'
  },
  {
    'path': 'b.bin',
    'content': '[BINARY FILE - BASE64 ENCODED]\nAAE='
  }
]")))).
Proof. vm_compute. reflexivity. Qed.

Example demo_console :
  match main demo_world initial with
  | Ok (_, s) => console s
  | Raise _ => []
  end
  = [lit "Processing 2 files...";
     lit "[1/2] Added: a.txt";
     lit "[2/2] Added: b.bin";
     LF :: lit "Created JSON file with 2 files";
     lit "File saved to: /home/ubuntu/files_to_push.json"].
Proof. vm_compute. reflexivity. Qed.

Example odd_console :
  console odd_final
  = [lit "Processing 4 files...";
     lit "[1/4] Added: vendor";
     lit "[2/4] Skipped (not found): gone";
     lit "[3/4] Added: empty";
     lit "[4/4] Added: cr.txt";
     LF :: lit "Created JSON file with 3 files";
     lit "File saved to: /home/ubuntu/files_to_push.json"].
Proof. vm_compute. reflexivity. Qed.

Example split_strip :
  map strip (filter (fun f => truthy (strip f))
                    (split LF (lit " a b " ++ LF :: LF :: [9; 160; 10]%N ++ lit "c")))
  = [lit "a b"; lit "c"].
Proof. reflexivity. Qed.

Example empty_dump : dumps [] = lit "[]".
Proof. reflexivity. Qed.

Example escapes :
  encode_basestring [34; 92; 10; 1; 31; 127; 233]%N
  = requote (lit "'\") ++ QUOTE :: lit "\\\n\u0001\u001f" ++ [127; 233; 34]%N.
Proof. reflexivity. Qed.

Example replace_decoding :
  utf8_decode Replace [xe2; x82; xac; xff; xe2; x82; x41; xf0; x9f; xed; xa0; x80]
  = Ok [8364; 65533; 65533; 65; 65533; 65533; 65533; 65533]%N.
Proof. reflexivity. Qed.

(** ** Encoding the output *)

Lemma utf8_encode_scalar t :
  forallb is_scalar t = true -> exists data, utf8_encode t = Ok data.
Proof.
  induction t as [|c t IH]; intros H; [now exists []|].
  cbn [forallb] in H. apply andb_true_iff in H. destruct H as [Hc Ht].
  destruct (IH Ht) as [data Hd]. cbn [utf8_encode]. rewrite Hd.
  apply is_scalar_iff in Hc.
  destruct (c <? 128)%N; [eexists; reflexivity|].
  destruct (c <? 2048)%N; [eexists; reflexivity|].
  destruct (c <? 65536)%N eqn:C3.
  - destruct ((55296 <=? c)%N && (c <=? 57343)%N) eqn:C; [|eexists; reflexivity].
    bool_to_prop. lia.
  - destruct (c <? 1114112)%N eqn:C4; [eexists; reflexivity|].
    bool_to_prop. lia.
Qed.

Lemma forallb_app_true (A : Type) (f : A -> bool) (l l' : list A) :
  forallb f l = true -> forallb f l' = true -> forallb f (l ++ l') = true.
Proof. intros H H'. now rewrite forallb_app, H, H'. Qed.

Lemma lit_scalar s : forallb is_scalar (lit s) = true.
Proof.
  induction s as [|c s IH]; [reflexivity|]. cbn [lit forallb]. rewrite IH, andb_true_r.
  apply is_scalar_iff. left.
  pose proof (N_ascii_bounded c). lia.
Qed.






Lemma translate_newlines_scalar s :
  forallb is_scalar s = true -> forallb is_scalar (translate_newlines s) = true.
Proof.
  remember (List.length s) as n eqn:Hn.
  revert s Hn. induction n as [n IH] using lt_wf_ind. intros s Hn H.
  destruct s as [|c s]; [reflexivity|].
  cbn [forallb] in H. apply andb_true_iff in H. destruct H as [Hc Hs].
  assert (IH0 : forallb is_scalar (translate_newlines s) = true)
    by (apply (IH (List.length s)); subst; simpl; trivial; lia).
  cbn [translate_newlines].
  destruct (c =? CR)%N; cbn [forallb]; [|now rewrite Hc, IH0].
  destruct s as [|d s]; [reflexivity|].
  destruct (d =? LF)%N; [|exact IH0].
  cbn [forallb] in Hs. apply andb_true_iff in Hs. destruct Hs as [_ Hs].
  apply (IH (List.length s)); subst; simpl; trivial; lia.
Qed.

Lemma read_file_content_scalar w p :
  (forall msg, disk w p = Unreadable msg -> forallb is_scalar msg = true) ->
  exists_ w p = true ->
  forallb is_scalar (read_file_content w p) = true.
Proof.
  intros Hmsg He. unfold exists_ in He.
  destruct (disk w p) as [data|msg|msg] eqn:Hd; [| |discriminate].
  - rewrite (read_file_content_regular _ _ Hd).
    destruct (contains [x00] (firstn 1024 data)).
    + apply forallb_app_true; [reflexivity|].
      pose proof (b64encode_ascii data) as Ha.
      induction (b64encode data) as [|b l IH]; [reflexivity|].
      cbn [forallb] in Ha. apply andb_true_iff in Ha. destruct Ha as [Hb Hl].
      cbn [map forallb]. rewrite (IH Hl), andb_true_r.
      apply is_scalar_iff. bool_to_prop. lia.
    + destruct (utf8_decode_replace_scalar data) as [text [-> Hs]].
      now apply translate_newlines_scalar.
  - rewrite (@read_file_content_raises w p (Exception msg))
      by (unfold open_; now rewrite Hd).
    unfold ERROR_PLACEHOLDER. cbn [exn_str].
    repeat apply forallb_app_true; try apply lit_scalar. now apply Hmsg.
Qed.


(** ** UTF-8: decoding undoes encoding *)

Lemma to_N_byte_of_N n : (n < 256)%N -> Byte.to_N (byte_of_N n) = n.
Proof.
  intros Hn. unfold byte_of_N.
  destruct (Byte.of_N n) as [b|] eqn:Hb.
  - now apply Byte.to_of_N.
  - apply Byte.of_N_None_iff in Hb. lia.
Qed.

Lemma lor_lead hi x :
  (hi = 128 /\ x < 64 \/ hi = 192 /\ x < 64 \/ hi = 224 /\ x < 16
   \/ hi = 240 /\ x < 8)%N ->
  N.lor hi x = (hi + x)%N.
Proof.
  assert (H : forall hi n, forallb (fun x => N.lor hi x =? hi + x)%N (below n) = true ->
                           (x < N.of_nat n)%N -> N.lor hi x = (hi + x)%N).
  { intros h n Hall Hx. apply N.eqb_eq.
    now apply (forallb_below (fun x => N.lor h x =? h + x)%N n). }
  intros [[-> Hx]|[[-> Hx]|[[-> Hx]|[-> Hx]]]].
  - apply (H _ 64%nat); [vm_compute; reflexivity|lia].
  - apply (H _ 64%nat); [vm_compute; reflexivity|lia].
  - apply (H _ 16%nat); [vm_compute; reflexivity|lia].
  - apply (H _ 8%nat); [vm_compute; reflexivity|lia].
Qed.

Lemma land_63 c : N.land c 63 = (c mod 64)%N.
Proof. change 63%N with (N.ones 6). now rewrite N.land_ones. Qed.

Lemma shiftr_div c k : N.shiftr c k = (c / 2 ^ k)%N.
Proof. apply N.shiftr_div_pow2. Qed.

Ltac split_codepoint c :=
  rewrite ?land_63, ?shiftr_div;
  change (2 ^ 6)%N with 64%N; change (2 ^ 12)%N with 4096%N;
  change (2 ^ 18)%N with 262144%N.

Ltac euclid := zify; Z.to_euclidean_division_equations; lia.

Ltac decide_test :=
  match goal with
  | |- context [(?a <? ?b)%N] =>
      first [ replace (a <? b)%N with true by (symmetry; apply N.ltb_lt; lia)
            | replace (a <? b)%N with false by (symmetry; apply N.ltb_ge; lia) ]
  | |- context [(?a <=? ?b)%N] =>
      first [ replace (a <=? b)%N with true by (symmetry; apply N.leb_le; lia)
            | replace (a <=? b)%N with false by (symmetry; apply N.leb_gt; lia) ]
  | |- context [(?a =? ?b)%N] =>
      first [ replace (a =? b)%N with true by (symmetry; apply N.eqb_eq; lia)
            | replace (a =? b)%N with false by (symmetry; apply N.eqb_neq; lia) ]
  end.

Lemma utf8_encode_cons c s :
  utf8_encode (c :: s) =
  if (c <? 128)%N then
    tl <- utf8_encode s ;; Ok (byte_of_N c :: tl)
  else if (c <? 2048)%N then
    tl <- utf8_encode s ;;
    Ok (byte_of_N (N.lor 192 (N.shiftr c 6))
        :: byte_of_N (N.lor 128 (N.land c 63)) :: tl)
  else if (c <? 65536)%N then
    if (55296 <=? c)%N && (c <=? 57343)%N then
      Raise (Exception (lit "surrogates not allowed"))
    else
      tl <- utf8_encode s ;;
      Ok (byte_of_N (N.lor 224 (N.shiftr c 12))
          :: byte_of_N (N.lor 128 (N.land (N.shiftr c 6) 63))
          :: byte_of_N (N.lor 128 (N.land c 63)) :: tl)
  else if (c <? 1114112)%N then
    tl <- utf8_encode s ;;
    Ok (byte_of_N (N.lor 240 (N.shiftr c 18))
        :: byte_of_N (N.lor 128 (N.land (N.shiftr c 12) 63))
        :: byte_of_N (N.lor 128 (N.land (N.shiftr c 6) 63))
        :: byte_of_N (N.lor 128 (N.land c 63)) :: tl)
  else Raise (Exception (lit "character out of range")).
Proof. reflexivity. Qed.

Lemma Ok_inj (A : Type) (a b : A) : Ok a = Ok b -> a = b.
Proof. intros H. now injection H. Qed.

Lemma utf8_decode_encode errors t :
  forall data, utf8_encode t = Ok data -> utf8_decode errors data = Ok t.
Proof.
  induction t as [|c t IH]; intros data H.
  - injection H as <-. reflexivity.
  - rewrite utf8_encode_cons in H.
    destruct (c <? 128)%N eqn:C1.
    { destruct (utf8_encode t) as [tl|e]; [|discriminate].
      unfold bind in H. apply Ok_inj in H. subst data. bool_to_prop. cbn [utf8_decode].
      rewrite to_N_byte_of_N by lia.
      destruct (N.ltb_spec c 128); [|lia]. now rewrite (IH tl). }
    destruct (c <? 2048)%N eqn:C2.
    { destruct (utf8_encode t) as [tl|e]; [|discriminate].
      unfold bind in H. apply Ok_inj in H. subst data. bool_to_prop.
      assert (Hq : (c / 64 < 32)%N) by euclid.
      assert (Hr : (c mod 64 < 64)%N) by euclid.
      assert (Hc : (c = 64 * (c / 64) + c mod 64)%N) by euclid.
      split_codepoint c. rewrite !lor_lead by lia.
      set (q := (c / 64)%N) in *. set (r := (c mod 64)%N) in *.
      assert (E0 : Byte.to_N (byte_of_N (192 + q)) = (192 + q)%N)
        by (apply to_N_byte_of_N; lia).
      assert (E1 : Byte.to_N (byte_of_N (128 + r)) = (128 + r)%N)
        by (apply to_N_byte_of_N; lia).
      revert E0 E1.
      generalize (byte_of_N (192 + q)) (byte_of_N (128 + r)). intros x0 x1 E0 E1.
      remember (x1 :: tl) as T0 eqn:ET0.
      cbn [utf8_decode]. subst T0. cbv beta iota.
      unfold is_continuation. rewrite E0, E1, !shiftl_6.
      repeat decide_test. cbn [negb andb]. rewrite (IH tl eq_refl). cbn [bind].
      do 2 f_equal. lia. }
    destruct (c <? 65536)%N eqn:C3.
    { destruct ((55296 <=? c)%N && (c <=? 57343)%N) eqn:C; [discriminate|].
      destruct (utf8_encode t) as [tl|e]; [|discriminate].
      unfold bind in H. apply Ok_inj in H. subst data.
      apply andb_false_iff in C. destruct C as [C|C]; bool_to_prop.
      all: assert (Hk : (c / 4096 < 16)%N) by euclid.
      all: assert (Hm : ((c / 64) mod 64 < 64)%N) by euclid.
      all: assert (Hr : (c mod 64 < 64)%N) by euclid.
      all: assert (Hc : (c = 4096 * (c / 4096) + 64 * ((c / 64) mod 64)
                           + c mod 64)%N) by euclid.
      all: split_codepoint c; rewrite !lor_lead by lia.
      all: set (k := (c / 4096)%N) in *; set (m := ((c / 64) mod 64)%N) in *;
        set (r := (c mod 64)%N) in *.
      all: assert (E0 : Byte.to_N (byte_of_N (224 + k)) = (224 + k)%N)
        by (apply to_N_byte_of_N; lia).
      all: assert (E1 : Byte.to_N (byte_of_N (128 + m)) = (128 + m)%N)
        by (apply to_N_byte_of_N; lia).
      all: assert (E2 : Byte.to_N (byte_of_N (128 + r)) = (128 + r)%N)
        by (apply to_N_byte_of_N; lia).
      all: revert E0 E1 E2;
        generalize (byte_of_N (224 + k)) (byte_of_N (128 + m))
                   (byte_of_N (128 + r));
        intros x0 x1 x2 E0 E1 E2.
      all: remember (x1 :: x2 :: tl) as T0 eqn:ET0;
        cbn [utf8_decode]; subst T0; cbv beta iota;
        unfold is_continuation; rewrite E0, E1, E2, !shiftl_6, !shiftl_12.
      all: destruct (N.lt_ge_cases m 32);
        (repeat decide_test; cbn [negb andb orb]; rewrite (IH tl eq_refl);
         cbn [bind]; do 2 f_equal; lia). }
    destruct (c <? 1114112)%N eqn:C4; [|discriminate].
    destruct (utf8_encode t) as [tl|e]; [|discriminate].
    unfold bind in H. apply Ok_inj in H. subst data. bool_to_prop.
    assert (Hk : (c / 262144 < 8)%N) by euclid.
    assert (Hm1 : ((c / 4096) mod 64 < 64)%N) by euclid.
    assert (Hm2 : ((c / 64) mod 64 < 64)%N) by euclid.
    assert (Hr : (c mod 64 < 64)%N) by euclid.
    assert (Hc : (c = 262144 * (c / 262144) + 4096 * ((c / 4096) mod 64)
                      + 64 * ((c / 64) mod 64) + c mod 64)%N) by euclid.
    split_codepoint c. rewrite !lor_lead by lia.
    set (k := (c / 262144)%N) in *. set (m1 := ((c / 4096) mod 64)%N) in *.
    set (m2 := ((c / 64) mod 64)%N) in *. set (r := (c mod 64)%N) in *.
    assert (E0 : Byte.to_N (byte_of_N (240 + k)) = (240 + k)%N)
      by (apply to_N_byte_of_N; lia).
    assert (E1 : Byte.to_N (byte_of_N (128 + m1)) = (128 + m1)%N)
      by (apply to_N_byte_of_N; lia).
    assert (E2 : Byte.to_N (byte_of_N (128 + m2)) = (128 + m2)%N)
      by (apply to_N_byte_of_N; lia).
    assert (E3 : Byte.to_N (byte_of_N (128 + r)) = (128 + r)%N)
      by (apply to_N_byte_of_N; lia).
    revert E0 E1 E2 E3.
    generalize (byte_of_N (240 + k)) (byte_of_N (128 + m1))
               (byte_of_N (128 + m2)) (byte_of_N (128 + r)).
    intros x0 x1 x2 x3 E0 E1 E2 E3.
    remember (x1 :: x2 :: x3 :: tl) as T0 eqn:ET0.
    cbn [utf8_decode]. subst T0. cbv beta iota.
    unfold is_continuation.
    rewrite E0, E1, E2, E3, !shiftl_6, !shiftl_12, !shiftl_18.
    destruct (N.lt_ge_cases m1 16);
      (repeat decide_test; cbn [negb andb orb]; rewrite (IH tl eq_refl);
       cbn [bind]; do 2 f_equal; lia).
Qed.

(** A file that holds the UTF-8 encoding of a text without null
    characters in its first 1024 bytes is read back as that text, up to
    the line endings. *)
Lemma read_file_content_encoded_text w p t data :
  open_ w p = Ok data -> utf8_encode t = Ok data ->
  is_binary_file w p = false ->
  read_file_content w p = translate_newlines t.
Proof.
  intros Ho He Hb. apply open_regular in Ho.
  rewrite (read_file_content_regular _ _ Ho).
  rewrite <- (is_binary_file_regular _ _ Ho), Hb.
  now rewrite (utf8_decode_encode Replace _ He).
Qed.

(** * Further properties *)

(** ** The listing *)

Lemma split_fields sep s (P : codepoint -> Prop) :
  Forall P s -> Forall (Forall P) (split sep s).
Proof.
  induction s as [|c s IH]; intros H; cbn [split].
  - repeat constructor.
  - inversion H as [|? ? Hc Hs]; subst. specialize (IH Hs).
    destruct (N.eqb c sep); [constructor; [constructor|exact IH]|].
    destruct (split sep s) as [|f fs]; [repeat constructor; exact Hc|].
    inversion IH; subst. constructor; [now constructor|assumption].
Qed.

Lemma split_no_sep sep s : Forall (fun f => ~ In sep f) (split sep s).
Proof.
  induction s as [|c s IH]; cbn [split].
  - constructor; [intros []|constructor].
  - destruct (N.eqb_spec c sep) as [->|Hne].
    + constructor; [intros []|exact IH].
    + destruct (split sep s) as [|f fs].
      * constructor; [|constructor]. intros [H|[]]. congruence.
      * inversion IH; subst. constructor; [|assumption].
        intros [H|H]; [congruence|contradiction].
Qed.

Lemma lstrip_incl s : incl (lstrip s) s.
Proof.
  induction s as [|c s IH]; cbn [lstrip]; [apply incl_refl|].
  destruct (isspace c); [now apply incl_tl|apply incl_refl].
Qed.

Lemma rstrip_incl s : incl (rstrip s) s.
Proof.
  unfold rstrip. intros c Hc. apply in_rev in Hc.
  apply lstrip_incl in Hc. now apply in_rev.
Qed.

Lemma strip_incl s : incl (strip s) s.
Proof.
  unfold strip. intros c Hc. apply lstrip_incl. now apply rstrip_incl.
Qed.

(** What is left of a string after [lstrip] does not start with a space. *)
Lemma lstrip_head s :
  match lstrip s with
  | [] => True
  | c :: _ => isspace c = false
  end.
Proof.
  induction s as [|c s IH]; cbn [lstrip]; [exact I|].
  destruct (isspace c) eqn:Hc; [exact IH|exact Hc].
Qed.

Lemma lstrip_fixed s :
  match s with [] => True | c :: _ => isspace c = false end -> lstrip s = s.
Proof. destruct s as [|c s]; [reflexivity|]. cbn [lstrip]. now intros ->. Qed.

Lemma lstrip_spaces s : forallb isspace s = true -> lstrip s = [].
Proof.
  induction s as [|c s IH]; [reflexivity|]. cbn [forallb lstrip].
  intros H. apply andb_true_iff in H. destruct H as [-> Hs]. now apply IH.
Qed.

(** [lstrip] removes a run of spaces and nothing else. *)
Lemma lstrip_split s :
  exists spaces, s = spaces ++ lstrip s /\ forallb isspace spaces = true.
Proof.
  induction s as [|c s [sp [Hs Hsp]]]; [now exists []|]. cbn [lstrip].
  destruct (isspace c) eqn:Hc.
  - exists (c :: sp). cbn [app forallb]. rewrite Hc, Hsp. now rewrite <- Hs.
  - now exists [].
Qed.

Lemma rstrip_split s :
  exists spaces, s = rstrip s ++ spaces /\ forallb isspace spaces = true.
Proof.
  unfold rstrip. destruct (lstrip_split (rev s)) as [sp [Hs Hsp]].
  exists (rev sp). split.
  - rewrite <- rev_app_distr, <- Hs. now rewrite rev_involutive.
  - rewrite forallb_forall in *. intros c Hc. apply Hsp. now apply in_rev.
Qed.

(** What is left after [rstrip] does not end with a space. *)
Lemma rstrip_last s :
  match rev (rstrip s) with
  | [] => True
  | c :: _ => isspace c = false
  end.
Proof. unfold rstrip. rewrite rev_involutive. apply lstrip_head. Qed.

Lemma rstrip_keeps_head s :
  match s with [] => True | c :: _ => isspace c = false end ->
  match rstrip s with [] => s = [] | c :: _ => isspace c = false end.
Proof.
  intros Hh. destruct (rstrip_split s) as [sp [Hs Hsp]].
  destruct (rstrip s) as [|c r].
  - cbn [app] in Hs. subst sp. destruct s as [|d s]; [reflexivity|].
    cbn [forallb] in Hsp. apply andb_true_iff in Hsp. destruct Hsp. congruence.
  - rewrite Hs in Hh. exact Hh.
Qed.

Lemma strip_ends s :
  match strip s with [] => True | c :: _ => isspace c = false end /\
  match rev (strip s) with [] => True | c :: _ => isspace c = false end.
Proof.
  unfold strip. split; [|apply rstrip_last].
  pose proof (rstrip_keeps_head (lstrip s) (lstrip_head s)) as H.
  destruct (rstrip (lstrip s)); [exact I|exact H].
Qed.

Lemma rstrip_fixed s :
  match rev s with [] => True | c :: _ => isspace c = false end -> rstrip s = s.
Proof.
  intros H. unfold rstrip. rewrite (lstrip_fixed _ H). apply rev_involutive.
Qed.

Lemma strip_fixed s :
  match s with [] => True | c :: _ => isspace c = false end ->
  match rev s with [] => True | c :: _ => isspace c = false end ->
  strip s = s.
Proof.
  intros Hh Hl. unfold strip. rewrite (lstrip_fixed _ Hh). now apply rstrip_fixed.
Qed.

Lemma strip_idempotent s : strip (strip s) = strip s.
Proof. destruct (strip_ends s). now apply strip_fixed. Qed.

Lemma strip_spaces s : forallb isspace s = true -> strip s = [].
Proof. intros H. unfold strip. now rewrite (lstrip_spaces _ H). Qed.

Lemma get_git_files_listed w r :
  run_git_ls_files w = Ok r -> returncode r = 0%Z ->
  get_git_files w
  = Ok (map strip (filter (fun f => truthy (strip f)) (split LF (stdout r)))).
Proof.
  intros Hrun Hrc. unfold get_git_files. rewrite Hrun. cbn [bind].
  now rewrite Hrc.
Qed.

(** X1: every path the enumerator returns is non-empty, holds no newline,
    and neither starts nor ends with white space. *)
Theorem get_git_files_clean (w : world) (git_files : list pystr)
    (Hget : get_git_files w = Ok git_files) :
  Forall (fun p => is_clean p) git_files.
Proof.
  unfold get_git_files in Hget.
  destruct (run_git_ls_files w) as [r|e]; [|discriminate]. cbn [bind] in Hget.
  destruct (Z.eqb (returncode r) 0);
    apply Ok_inj in Hget; subst git_files; [|constructor].
  apply Forall_map. apply Forall_forall. intros f Hf.
  apply filter_In in Hf. destruct Hf as [Hin Ht].
  pose proof (split_no_sep LF (stdout r)) as Hs.
  rewrite Forall_forall in Hs. specialize (Hs f Hin).
  repeat split.
  - intros He. rewrite He in Ht. discriminate.
  - apply strip_idempotent.
  - intros Hlf. apply Hs. now apply strip_incl.
Qed.

Lemma get_git_files_clean_witness :
  get_git_files demo_world = Ok [lit "a.txt"; lit "b.bin"] /\
  Forall (fun p => is_clean p) [lit "a.txt"; lit "b.bin"].
Proof.
  assert (H : get_git_files demo_world = Ok [lit "a.txt"; lit "b.bin"])
    by reflexivity.
  split; [exact H|]. exact (get_git_files_clean demo_world H).
Defined.

Lemma split_app_sep sep f s :
  ~ In sep f -> split sep (f ++ sep :: s) = f :: split sep s.
Proof.
  induction f as [|c f IH]; intros Hf; cbn [app split].
  - now rewrite N.eqb_refl.
  - destruct (N.eqb_spec c sep) as [->|Hne]; [exfalso; apply Hf; now left|].
    rewrite IH by (intros H; apply Hf; now right). reflexivity.
Qed.

Lemma is_clean_kept p : is_clean p -> truthy (strip p) = true /\ strip p = p.
Proof.
  intros [Hne [Hs _]]. split; [|exact Hs]. rewrite Hs.
  destruct p; [contradiction|reflexivity].
Qed.

(** X2: when git exits with status 0 and prints clean paths one per line,
    the enumerator returns exactly those paths, in that order. *)
Theorem get_git_files_listing (w : world) (r : CompletedProcess)
    (paths : list pystr)
    (Hrun : run_git_ls_files w = Ok r)
    (Hrc : returncode r = 0%Z)
    (Hout : stdout r = listing paths)
    (Hclean : Forall (fun p => is_clean p) paths) :
  get_git_files w = Ok paths.
Proof.
  rewrite (get_git_files_listed _ Hrun Hrc), Hout. f_equal. clear Hout.
  induction Hclean as [|p paths Hp _ IH]; [reflexivity|].
  unfold listing. cbn [flat_map]. rewrite <- app_assoc. cbn [app].
  rewrite split_app_sep by apply Hp.
  destruct (is_clean_kept Hp) as [Ht Hs].
  cbn [filter]. rewrite Ht. cbn [map]. rewrite Hs. f_equal. exact IH.
Qed.

Lemma get_git_files_listing_witness :
  get_git_files dup_world = Ok [lit "b.bin"; lit "a.txt"; lit "b.bin"].
Proof.
  apply (@get_git_files_listing dup_world
           {| returncode := 0;
              stdout := lit "b.bin" ++ LF :: lit "a.txt" ++ LF :: lit "b.bin"
                        ++ [LF] |}
           [lit "b.bin"; lit "a.txt"; lit "b.bin"]);
    try reflexivity.
  repeat constructor; try discriminate;
    intros H; repeat (destruct H as [H|H]; [discriminate|]); exact H.
Defined.

(** X3: when git prints nothing but white space the enumerator returns the
    empty list, whatever the exit status. *)
Theorem get_git_files_blank (w : world) (r : CompletedProcess)
    (Hrun : run_git_ls_files w = Ok r)
    (Hblank : forallb isspace (stdout r) = true) :
  get_git_files w = Ok [].
Proof.
  unfold get_git_files. rewrite Hrun. cbn [bind].
  destruct (Z.eqb (returncode r) 0); [|reflexivity]. f_equal.
  assert (Hf : Forall (Forall (fun c => isspace c = true)) (split LF (stdout r))).
  { apply split_fields. apply Forall_forall. now apply forallb_forall. }
  induction Hf as [|f fs Hfield _ IH]; [reflexivity|].
  cbn [filter]. rewrite strip_spaces; [exact IH|].
  apply forallb_forall. now apply Forall_forall.
Qed.

Lemma get_git_files_blank_witness :
  get_git_files
    {| chdir := Ok tt;
       run_git_ls_files := Ok {| returncode := 0; stdout := [32; 10; 9; 10]%N |};
       disk := demo_disk;
       create_output := Ok tt |}
  = Ok [].
Proof.
  apply (@get_git_files_blank _ {| returncode := 0; stdout := [32; 10; 9; 10]%N |});
    reflexivity.
Defined.

(** ** The binary record *)

Lemma b64encode_length data :
  List.length (b64encode data) = 4 * ((List.length data + 2) / 3).
Proof.
  induction data as [|x|x y|x y z s IH] using list_ind3; try reflexivity.
  cbn [b64encode List.length]. rewrite IH.
  replace (S (S (S (List.length s))) + 2) with ((List.length s + 2) + 1 * 3) by lia.
  rewrite Nat.div_add by discriminate. lia.
Qed.

Lemma b64_char_letter i :
  b64_index (Byte.to_N (b64_char i)) <> None \/ Byte.to_N (b64_char i) = PAD.
Proof.
  unfold b64_char.
  assert (H : forallb (fun b => match b64_index (Byte.to_N b) with
                                | Some _ => true
                                | None => (Byte.to_N b =? PAD)%N
                                end) ("="%byte :: b64_alphabet) = true)
    by (vm_compute; reflexivity).
  rewrite forallb_forall in H.
  assert (Hin : In (nth (N.to_nat i) b64_alphabet "="%byte) ("="%byte :: b64_alphabet)).
  { destruct (nth_in_or_default (N.to_nat i) b64_alphabet "="%byte) as [Hin|Hd];
      [now right|left; now rewrite Hd]. }
  specialize (H _ Hin).
  destruct (b64_index (Byte.to_N (nth (N.to_nat i) b64_alphabet "="%byte)));
    [left; discriminate|right; now apply N.eqb_eq].
Qed.

Lemma b64encode_letters data :
  Forall (fun c => b64_index c <> None \/ c = PAD)
         (map Byte.to_N (b64encode data)).
Proof.
  induction data as [|x|x y|x y z s IH] using list_ind3;
    cbn [b64encode map];
    repeat (apply Forall_cons;
            [first [apply b64_char_letter | right; reflexivity]|]);
    first [apply Forall_nil | exact IH].
Qed.

(** X4: the content of a binary record is the 31 characters of the marker
    line followed by four base64 characters for every three bytes of the
    file, the last group completed. *)
Theorem read_file_content_binary_length (w : world) (filepath : pystr)
    (data : bytes)
    (Hopen : open_ w filepath = Ok data)
    (Hbin : is_binary_file w filepath = true) :
  List.length (read_file_content w filepath)
  = 31 + 4 * ((List.length data + 2) / 3).
Proof.
  apply open_regular in Hopen.
  rewrite (read_file_content_regular _ _ Hopen).
  rewrite <- (is_binary_file_regular _ _ Hopen), Hbin.
  rewrite length_app, length_map, b64encode_length. reflexivity.
Qed.

Lemma read_file_content_binary_length_witness :
  List.length (read_file_content demo_world (lit "b.bin"))
  = 31 + 4 * ((List.length [x00; x01] + 2) / 3).
Proof.
  apply (@read_file_content_binary_length demo_world (lit "b.bin") [x00; x01]);
    reflexivity.
Defined.

(** X5: after the marker line the content of a binary record holds only
    letters of the base64 alphabet and the padding character: no newline,
    no quote, no backslash, nothing outside ASCII. *)
Theorem read_file_content_binary_alphabet (w : world) (filepath : pystr)
    (data : bytes)
    (Hopen : open_ w filepath = Ok data)
    (Hbin : is_binary_file w filepath = true) :
  exists payload,
    read_file_content w filepath = BINARY_MARKER ++ payload /\
    Forall (fun c => b64_index c <> None \/ c = PAD) payload.
Proof.
  apply open_regular in Hopen.
  exists (map Byte.to_N (b64encode data)). split.
  - rewrite (read_file_content_regular _ _ Hopen).
    now rewrite <- (is_binary_file_regular _ _ Hopen), Hbin.
  - apply b64encode_letters.
Qed.

Lemma read_file_content_binary_alphabet_witness :
  exists payload,
    read_file_content demo_world (lit "b.bin") = BINARY_MARKER ++ payload /\
    Forall (fun c => b64_index c <> None \/ c = PAD) payload.
Proof.
  apply (@read_file_content_binary_alphabet demo_world (lit "b.bin") [x00; x01]);
    reflexivity.
Defined.

(** ** The text record *)

Lemma translate_newlines_cons c s :
  translate_newlines (c :: s) =
  if (c =? CR)%N then
    LF :: match s with
          | [] => []
          | d :: s' =>
              if (d =? LF)%N then translate_newlines s'
              else translate_newlines s
          end
  else c :: translate_newlines s.
Proof. reflexivity. Qed.

(** Induction on a string that may drop two characters at a time. *)
Lemma list_ind2 (A : Type) (P : list A -> Prop) :
  P [] -> (forall x l, P l -> (forall y l', l = y :: l' -> P l') -> P (x :: l)) ->
  forall l, P l.
Proof.
  intros H0 H2 l.
  assert (H : P l /\ forall y l', l = y :: l' -> P l').
  { induction l as [|a l [IH1 IH2]].
    - split; [exact H0|discriminate].
    - split; [now apply H2|]. intros y l' E. injection E as <- <-. exact IH1. }
  apply H.
Qed.

Lemma translate_newlines_no_cr s : ~ In CR (translate_newlines s).
Proof.
  induction s as [|c s IH IH'] using list_ind2; [intros []|].
  rewrite translate_newlines_cons.
  destruct (N.eqb_spec c CR) as [->|Hne].
  - intros [H|H]; [discriminate|].
    destruct s as [|d s']; [destruct H|].
    destruct (d =? LF)%N; [now apply (IH' d s')|now apply IH].
  - intros [H|H]; [congruence|now apply IH].
Qed.

Lemma translate_newlines_id s : ~ In CR s -> translate_newlines s = s.
Proof.
  induction s as [|c s IH]; intros H; [reflexivity|].
  rewrite translate_newlines_cons.
  destruct (N.eqb_spec c CR) as [->|Hne]; [exfalso; apply H; now left|].
  rewrite IH; [reflexivity|]. intros Hin. apply H. now right.
Qed.

Lemma translate_newlines_length s :
  List.length (translate_newlines s) <= List.length s.
Proof.
  induction s as [|c s IH IH'] using list_ind2; [apply le_n|].
  rewrite translate_newlines_cons.
  destruct (c =? CR)%N; cbn [List.length]; [|lia].
  destruct s as [|d s']; [cbn; lia|].
  destruct (d =? LF)%N; [|lia].
  specialize (IH' d s' eq_refl). cbn [List.length]. lia.
Qed.

(** The decoder returns at most one character per byte. *)
Lemma utf8_decode_length errors s :
  forall t, utf8_decode errors s = Ok t -> List.length t <= List.length s.
Proof.
  remember (List.length s) as n eqn:Hn.
  revert s Hn. induction n as [n IH] using lt_wf_ind. intros s Hn.
  assert (IH' : forall s' t, List.length s' < List.length s ->
                 utf8_decode errors s' = Ok t ->
                 List.length t <= List.length s').
  { intros s' t Hlt. apply (IH (List.length s')); [lia|reflexivity]. }
  clear IH. subst n.
  destruct s as [|x0 t0]; intros t H.
  - apply Ok_inj in H. subst t. apply le_n.
  - cbn [utf8_decode] in H. destruct errors.
    all: repeat (cbv beta iota in *;
            match type of H with
            | context [if ?c then _ else _] => destruct c eqn:?
            | context [match ?l with [] => _ | _ :: _ => _ end] => destruct l
            end);
      try discriminate H;
      match type of H with
      | context [utf8_decode ?e ?tk] =>
          let E := fresh "E" in
          destruct (utf8_decode e tk) eqn:E; [|discriminate H];
          apply IH' in E; [|cbn [List.length]; lia];
          unfold bind in H; apply Ok_inj in H; subst t;
          cbn [List.length] in *; lia
      | _ => unfold bind in H; apply Ok_inj in H; subst t;
             cbn [List.length]; lia
      end.
Qed.

Lemma byte_of_N_not_null n : (0 < n < 256)%N -> byte_of_N n <> x00.
Proof.
  intros Hn E. apply (f_equal Byte.to_N) in E.
  rewrite to_N_byte_of_N in E by lia. cbn in E. lia.
Qed.

Ltac not_null_bytes H :=
  repeat (destruct H as [H|H];
          [revert H; apply byte_of_N_not_null; euclid|]).

(** The encoder writes a null byte for the null character only. *)
Lemma utf8_encode_no_null t :
  forall data, utf8_encode t = Ok data -> ~ In 0%N t -> ~ In x00 data.
Proof.
  induction t as [|c t IH]; intros data H Hz.
  - apply Ok_inj in H. subst data. intros [].
  - rewrite utf8_encode_cons in H.
    assert (Hc : c <> 0%N) by (intros ->; apply Hz; now left).
    assert (Ht : ~ In 0%N t) by (intros Hin; apply Hz; now right).
    destruct (c <? 128)%N eqn:C1.
    { destruct (utf8_encode t) as [tl|e]; [|discriminate].
      unfold bind in H. apply Ok_inj in H. subst data. bool_to_prop.
      intros Hin. not_null_bytes Hin. now apply (IH tl). }
    destruct (c <? 2048)%N eqn:C2.
    { destruct (utf8_encode t) as [tl|e]; [|discriminate].
      unfold bind in H. apply Ok_inj in H. subst data. bool_to_prop.
      assert (Hq : (c / 64 < 32)%N) by euclid.
      assert (Hr : (c mod 64 < 64)%N) by euclid.
      split_codepoint c. rewrite !lor_lead by lia.
      intros Hin. not_null_bytes Hin. now apply (IH tl). }
    destruct (c <? 65536)%N eqn:C3.
    { destruct ((55296 <=? c)%N && (c <=? 57343)%N); [discriminate|].
      destruct (utf8_encode t) as [tl|e]; [|discriminate].
      unfold bind in H. apply Ok_inj in H. subst data. bool_to_prop.
      assert (Hk : (c / 4096 < 16)%N) by euclid.
      assert (Hm : ((c / 64) mod 64 < 64)%N) by euclid.
      assert (Hr : (c mod 64 < 64)%N) by euclid.
      split_codepoint c. rewrite !lor_lead by lia.
      intros Hin. not_null_bytes Hin. now apply (IH tl). }
    destruct (c <? 1114112)%N eqn:C4; [|discriminate].
    destruct (utf8_encode t) as [tl|e]; [|discriminate].
    unfold bind in H. apply Ok_inj in H. subst data. bool_to_prop.
    assert (Hk : (c / 262144 < 8)%N) by euclid.
    assert (Hm1 : ((c / 4096) mod 64 < 64)%N) by euclid.
    assert (Hm2 : ((c / 64) mod 64 < 64)%N) by euclid.
    assert (Hr : (c mod 64 < 64)%N) by euclid.
    split_codepoint c. rewrite !lor_lead by lia.
    intros Hin. not_null_bytes Hin. now apply (IH tl).
Qed.

Lemma contains_null_window data :
  ~ In x00 data -> contains [x00] (firstn 1024 data) = false.
Proof.
  intros H. destruct (contains [x00] (firstn 1024 data)) eqn:E; [|reflexivity].
  apply contains_byte_In in E. exfalso. apply H.
  rewrite <- (firstn_skipn 1024 data). apply in_or_app. now left.
Qed.

(** X6: the content of a text record holds no carriage return. *)
Theorem read_file_content_text_no_cr (w : world) (filepath : pystr)
    (Htext : is_binary_file w filepath = false) :
  ~ In CR (read_file_content w filepath).
Proof.
  destruct (is_binary_file_false _ _ Htext) as [data [Hd Hc]].
  rewrite (read_file_content_regular _ _ Hd), Hc.
  destruct (utf8_decode_replace_scalar data) as [text [-> _]].
  apply translate_newlines_no_cr.
Qed.

Lemma read_file_content_text_no_cr_witness :
  is_binary_file odd_world (lit "cr.txt") = false /\
  ~ In CR (read_file_content odd_world (lit "cr.txt")).
Proof.
  assert (H : is_binary_file odd_world (lit "cr.txt") = false) by reflexivity.
  split; [exact H|]. exact (read_file_content_text_no_cr odd_world _ H).
Defined.

(** X7: a file that holds the UTF-8 encoding of a text with neither a null
    character nor a carriage return is a text file, and its content is that
    text, character for character. *)
Theorem read_file_content_round_trip (w : world) (filepath : pystr)
    (t : pystr) (data : bytes)
    (Hopen : open_ w filepath = Ok data)
    (Henc : utf8_encode t = Ok data)
    (Hnull : ~ In 0%N t)
    (Hcr : ~ In CR t) :
  is_binary_file w filepath = false /\ read_file_content w filepath = t.
Proof.
  apply open_regular in Hopen.
  assert (Hc : contains [x00] (firstn 1024 data) = false)
    by (apply contains_null_window; eapply utf8_encode_no_null; eassumption).
  split; [now rewrite (is_binary_file_regular _ _ Hopen)|].
  rewrite (read_file_content_regular _ _ Hopen), Hc.
  rewrite (utf8_decode_encode Replace _ Henc). now apply translate_newlines_id.
Qed.

Lemma read_file_content_round_trip_witness :
  is_binary_file demo_world (lit "a.txt") = false /\
  read_file_content demo_world (lit "a.txt") = lit "hello".
Proof.
  apply (@read_file_content_round_trip demo_world (lit "a.txt") (lit "hello")
           (ascii_bytes "hello")); try reflexivity;
    intros H; repeat (destruct H as [H|H]; [discriminate|]); exact H.
Defined.

(** X8: the content of a text record has at most as many characters as the
    file has bytes. *)
Theorem read_file_content_text_length (w : world) (filepath : pystr)
    (data : bytes)
    (Hopen : open_ w filepath = Ok data)
    (Htext : is_binary_file w filepath = false) :
  List.length (read_file_content w filepath) <= List.length data.
Proof.
  apply open_regular in Hopen.
  rewrite (read_file_content_regular _ _ Hopen).
  rewrite <- (is_binary_file_regular _ _ Hopen), Htext.
  destruct (utf8_decode Replace data) as [text|e] eqn:Hdec.
  - apply utf8_decode_length in Hdec.
    pose proof (translate_newlines_length text). lia.
  - destruct (utf8_decode_replace_scalar data) as [text [Ht _]]. congruence.
Qed.

Lemma read_file_content_text_length_witness :
  List.length (read_file_content demo_world (lit "a.txt"))
  <= List.length (ascii_bytes "hello").
Proof.
  apply (@read_file_content_text_length demo_world (lit "a.txt")
           (ascii_bytes "hello")); reflexivity.
Defined.

(** ** The dump *)

Lemma expect_app prefix s : expect prefix (prefix ++ s) = Some s.
Proof.
  induction prefix as [|a prefix IH]; [now destruct s|].
  cbn [app expect]. now rewrite N.eqb_refl.
Qed.

Lemma parse_chars_cons c s :
  parse_chars (c :: s) =
  if (c =? QUOTE)%N then Some ([], s)
  else if (c =? BACKSLASH)%N then
    match s with
    | [] => None
    | e :: s'' =>
        if (e =? QUOTE)%N then consume QUOTE (parse_chars s'')
        else if (e =? BACKSLASH)%N then consume BACKSLASH (parse_chars s'')
        else if (e =? 110)%N then consume 10%N (parse_chars s'')
        else if (e =? 114)%N then consume 13%N (parse_chars s'')
        else if (e =? 116)%N then consume 9%N (parse_chars s'')
        else if (e =? 98)%N then consume 8%N (parse_chars s'')
        else if (e =? 102)%N then consume 12%N (parse_chars s'')
        else if (e =? 117)%N then
          match s'' with
          | h1 :: h2 :: h3 :: h4 :: s3 =>
              match hex_value h1, hex_value h2, hex_value h3, hex_value h4 with
              | Some v1, Some v2, Some v3, Some v4 =>
                  consume (((v1 * 16 + v2) * 16 + v3) * 16 + v4)%N
                          (parse_chars s3)
              | _, _, _, _ => None
              end
          | _ => None
          end
        else None
    end
  else consume c (parse_chars s).
Proof. reflexivity. Qed.

(** One escaped character reads back as the character. *)
Lemma parse_chars_escape c tail :
  parse_chars (escape c ++ tail) = consume c (parse_chars tail).
Proof.
  destruct (N.ltb_spec c 32) as [Hlt|Hge].
  - assert (Hin : In c (below 32)) by (apply In_below; exact Hlt).
    cbn [below] in Hin.
    repeat (destruct Hin as [<-|Hin]; [reflexivity|]). destruct Hin.
  - unfold escape.
    destruct (N.eqb_spec c QUOTE) as [->|Hq]; [reflexivity|].
    destruct (N.eqb_spec c BACKSLASH) as [->|Hb]; [reflexivity|].
    repeat match goal with
           | |- context [(c =? ?k)%N] =>
               replace (c =? k)%N with false
                 by (symmetry; apply N.eqb_neq; unfold QUOTE, BACKSLASH in *; lia)
           end.
    replace (c <? 32)%N with false by (symmetry; apply N.ltb_ge; lia).
    cbn [app]. rewrite parse_chars_cons.
    replace (c =? QUOTE)%N with false by (symmetry; now apply N.eqb_neq).
    replace (c =? BACKSLASH)%N with false by (symmetry; now apply N.eqb_neq).
    reflexivity.
Qed.

(** An encoded string reads back as the string. *)
Lemma parse_chars_encoded s rest :
  parse_chars (flat_map escape s ++ QUOTE :: rest) = Some (s, rest).
Proof.
  induction s as [|c s IH]; [reflexivity|].
  cbn [flat_map]. rewrite <- app_assoc, parse_chars_escape, IH. reflexivity.
Qed.

Lemma dumps_record_shape r rest :
  dumps_record r ++ rest
  = RECORD_OPEN ++ flat_map escape (path r) ++ QUOTE
    :: RECORD_MID ++ flat_map escape (content r) ++ QUOTE
    :: RECORD_CLOSE ++ rest.
Proof.
  unfold dumps_record, encode_basestring.
  repeat (rewrite <- ?app_assoc; cbn [app]). reflexivity.
Qed.

Lemma parse_record_dumps r rest :
  parse_record (dumps_record r ++ rest) = Some (r, rest).
Proof.
  rewrite dumps_record_shape. unfold parse_record.
  rewrite expect_app, parse_chars_encoded, expect_app, parse_chars_encoded,
    expect_app.
  now destruct r.
Qed.

(** X9: an encoded string starts with a quote, and reading back what
    follows (undoing the escapes, up to the first quote that is not
    escaped) gives the string and whatever was written after it. *)
Theorem encode_basestring_read_back (s rest : pystr) :
  exists body,
    encode_basestring s ++ rest = QUOTE :: body /\
    parse_chars body = Some (s, rest).
Proof.
  exists (flat_map escape s ++ QUOTE :: rest). split.
  - unfold encode_basestring. cbn [app]. now rewrite <- app_assoc.
  - apply parse_chars_encoded.
Qed.

Lemma items_shape r l tail :
  join ITEM_SEP (map dumps_record (r :: l)) ++ tail
  = dumps_record r
    ++ match l with
       | [] => tail
       | _ :: _ => ITEM_SEP ++ join ITEM_SEP (map dumps_record l) ++ tail
       end.
Proof.
  cbn [map join]. destruct l as [|r' l]; [reflexivity|].
  cbn [map]. now rewrite <- !app_assoc.
Qed.

Lemma items_inj l1 :
  forall l2, l1 <> [] -> l2 <> [] ->
    join ITEM_SEP (map dumps_record l1) ++ DUMP_END
    = join ITEM_SEP (map dumps_record l2) ++ DUMP_END ->
    l1 = l2.
Proof.
  induction l1 as [|r1 l1 IH]; intros l2 H1 H2 E; [contradiction|].
  destruct l2 as [|r2 l2]; [contradiction|].
  rewrite !items_shape in E.
  apply (f_equal parse_record) in E. rewrite !parse_record_dumps in E.
  injection E as -> E. f_equal.
  destruct l1 as [|r1' l1], l2 as [|r2' l2]; try reflexivity; try discriminate E.
  apply (app_inv_head ITEM_SEP) in E.
  apply IH; [discriminate|discriminate|exact E].
Qed.

Lemma dumps_cons r l :
  dumps (r :: l)
  = (lit "[" ++ LF :: lit "  ")
    ++ join ITEM_SEP (map dumps_record (r :: l)) ++ DUMP_END.
Proof. reflexivity. Qed.

Lemma dumps_injective_aux l1 l2 : dumps l1 = dumps l2 -> l1 = l2.
Proof.
  intros Hsame. destruct l1 as [|r1 l1], l2 as [|r2 l2].
  - reflexivity.
  - rewrite dumps_cons in Hsame. discriminate Hsame.
  - rewrite dumps_cons in Hsame. discriminate Hsame.
  - rewrite !dumps_cons in Hsame. apply app_inv_head in Hsame.
    apply items_inj; [discriminate|discriminate|exact Hsame].
Qed.

(** X10: two lists of records with the same dump are the same list. *)
Theorem dumps_injective (l1 l2 : list FileRecord)
    (Hsame : dumps l1 = dumps l2) :
  l1 = l2.
Proof. now apply dumps_injective_aux. Qed.

Lemma dumps_injective_witness :
  records demo_world [lit "a.txt"; lit "b.bin"]
  = [{| path := lit "a.txt"; content := lit "hello" |};
     {| path := lit "b.bin";
        content := lit "[BINARY FILE - BASE64 ENCODED]" ++ LF :: lit "AAE=" |}].
Proof.
  apply dumps_injective. reflexivity.
Defined.






(** ** The run, further *)



(** X13: the bytes a completed run leaves in the output file are
    well-formed UTF-8, and decode to the dump of the records the loop
    built. *)
Theorem output_decodes (w : world) (s s' : state)
    (Hrun : main w s = Ok (tt, s')) :
  exists git_files files_data data,
    get_git_files w = Ok git_files /\
    (forall total i s0, exists s1,
        process w total i git_files [] s0 = Ok (files_data, s1)) /\
    output_file s' = Some data /\
    utf8_decode Strict data = Ok (dumps files_data).
Proof.
  destruct (main_inv _ _ Hrun) as [git_files [data [Hg [Hu [Ho _]]]]].
  exists git_files, (records w git_files), data. repeat split; trivial.
  - intros total i s0. eexists. apply (process_spec w total git_files i [] s0).
  - now apply utf8_decode_encode.
Qed.

Lemma output_decodes_witness :
  main odd_world initial = Ok (tt, odd_final) /\
  exists git_files files_data data,
    get_git_files odd_world = Ok git_files /\
    (forall total i s0, exists s1,
        process odd_world total i git_files [] s0 = Ok (files_data, s1)) /\
    output_file odd_final = Some data /\
    utf8_decode Strict data = Ok (dumps files_data).
Proof.
  assert (H : main odd_world initial = Ok (tt, odd_final))
    by (vm_compute; reflexivity).
  split; [exact H|]. exact (output_decodes odd_world initial H).
Defined.

Lemma process_result w total i git_files s0 files s1 :
  process w total i git_files [] s0 = Ok (files, s1) ->
  files = records w git_files.
Proof.
  rewrite process_spec. cbn [app]. intros H. apply Ok_inj in H.
  now injection H as <- _.
Qed.

(** X14: the output file determines the records: when two completed runs
    leave the same bytes, their loops built the same list of records. *)
Theorem output_determines_records (w1 w2 : world) (s1 s2 s1' s2' : state)
    (git_files1 git_files2 : list pystr) (files1 files2 : list FileRecord)
    (t1 t2 t1' t2' : state)
    (Hrun1 : main w1 s1 = Ok (tt, s1'))
    (Hrun2 : main w2 s2 = Ok (tt, s2'))
    (Hgit1 : get_git_files w1 = Ok git_files1)
    (Hgit2 : get_git_files w2 = Ok git_files2)
    (Hloop1 : process w1 (List.length git_files1) 1 git_files1 [] t1
              = Ok (files1, t1'))
    (Hloop2 : process w2 (List.length git_files2) 1 git_files2 [] t2
              = Ok (files2, t2'))
    (Hsame : output_file s1' = output_file s2') :
  files1 = files2.
Proof.
  apply process_result in Hloop1, Hloop2. subst files1 files2.
  destruct (main_inv _ _ Hrun1) as [g1 [d1 [Hg1 [Hu1 [Ho1 _]]]]].
  destruct (main_inv _ _ Hrun2) as [g2 [d2 [Hg2 [Hu2 [Ho2 _]]]]].
  assert (g1 = git_files1) by congruence. assert (g2 = git_files2) by congruence.
  subst g1 g2. assert (d1 = d2) by congruence. subst d2.
  apply dumps_injective_aux.
  apply (utf8_decode_encode Strict) in Hu1, Hu2. congruence.
Qed.

Lemma output_determines_records_witness :
  records demo_world [lit "a.txt"; lit "b.bin"]
  = records demo_world_untracked [lit "a.txt"; lit "b.bin"].
Proof.
  eapply (@output_determines_records demo_world demo_world_untracked
            initial initial _ _ [lit "a.txt"; lit "b.bin"]
            [lit "a.txt"; lit "b.bin"] _ _ initial initial);
    try (rewrite process_spec); reflexivity.
Defined.

(** X15: when git runs but exits with a nonzero status, the run still
    completes: it reports 0 files and leaves the empty array [[]] in the
    output file. *)
Theorem failed_listing_writes_empty_array (w : world) (s : state)
    (r : CompletedProcess)
    (Hchdir : chdir w = Ok tt)
    (Hrun : run_git_ls_files w = Ok r)
    (Hrc : returncode r <> 0%Z)
    (Hout : create_output w = Ok tt) :
  main w s
  = Ok (tt, {| console :=
                 console s
                 ++ [lit "Processing 0 files...";
                     LF :: lit "Created JSON file with 0 files";
                     lit "File saved to: /home/ubuntu/files_to_push.json"];
               output_file := Some (ascii_bytes "[]") |}).
Proof.
  rewrite main_eq, Hchdir, (get_git_files_nonzero _ Hrun Hrc), Hout.
  reflexivity.
Qed.

Lemma failed_listing_writes_empty_array_witness :
  main git_fatal_world initial
  = Ok (tt, {| console :=
                 console initial
                 ++ [lit "Processing 0 files...";
                     LF :: lit "Created JSON file with 0 files";
                     lit "File saved to: /home/ubuntu/files_to_push.json"];
               output_file := Some (ascii_bytes "[]") |}).
Proof.
  apply (@failed_listing_writes_empty_array git_fatal_world initial
           {| returncode := 128; stdout := [] |}); try reflexivity.
  discriminate.
Defined.

(** X16: when git cannot be run at all the run ends with the exception of
    the invocation: no file is read and nothing is written. *)
Theorem failed_invocation_aborts (w : world) (s : state) (e : exn)
    (Hchdir : chdir w = Ok tt)
    (Hrun : run_git_ls_files w = Raise e) :
  main w s = Raise e.
Proof.
  rewrite main_eq, Hchdir, (get_git_files_raises _ Hrun). reflexivity.
Qed.

Lemma failed_invocation_aborts_witness :
  main no_git_world initial = Raise (Exception enoent).
Proof.
  apply (@failed_invocation_aborts no_git_world initial (Exception enoent));
    reflexivity.
Defined.





Lemma records_app w l1 l2 : records w (l1 ++ l2) = records w l1 ++ records w l2.
Proof. unfold records. now rewrite filter_app, map_app. Qed.

Lemma notices_app w total l1 :
  forall i l2,
    notices w total i (l1 ++ l2)
    = notices w total i l1 ++ notices w total (i + List.length l1) l2.
Proof.
  induction l1 as [|p l1 IH]; intros i l2; cbn [app notices List.length].
  - now rewrite Nat.add_0_r.
  - rewrite IH. now replace (S i + List.length l1) with (i + S (List.length l1)) by lia.
Qed.

(** X18: the loop over a listing in two parts is the loop over the first
    part followed by the loop over the second, started at the index and
    with the records the first one reached. *)
Theorem process_app (w : world) (total i : nat) (l1 l2 : list pystr)
    (files_data : list FileRecord) (s : state) :
  process w total i (l1 ++ l2) files_data s
  = (files_data' <- process w total i l1 files_data ;;
     process w total (i + List.length l1) l2 files_data')%io s.
Proof.
  unfold bindM. rewrite !process_spec. cbn [console output_file].
  now rewrite records_app, notices_app, !app_assoc.
Qed.

(** ** Encoding, further *)

(** X19: the content of the record of a path that exists can be written to
    the output file: it encodes, and the bytes decode back to it, provided
    the message of the error of an unreadable path holds no surrogate. *)
Theorem content_encodable (w : world) (filepath : pystr)
    (Hexists : exists_ w filepath = true)
    (Hmsg : forall msg, disk w filepath = Unreadable msg ->
                        forallb is_scalar msg = true) :
  exists data,
    utf8_encode (read_file_content w filepath) = Ok data /\
    utf8_decode Strict data = Ok (read_file_content w filepath).
Proof.
  destruct (utf8_encode_scalar _ (read_file_content_scalar w filepath Hmsg Hexists))
    as [data Hd].
  exists data. split; [exact Hd|]. now apply utf8_decode_encode.
Qed.

Lemma content_encodable_witness :
  exists data,
    utf8_encode (read_file_content odd_world (lit "vendor")) = Ok data /\
    utf8_decode Strict data = Ok (read_file_content odd_world (lit "vendor")).
Proof.
  apply (@content_encodable odd_world (lit "vendor")); [reflexivity|].
  intros msg H. injection H as <-. reflexivity.
Defined.

(** X20: the decoder of the reader undoes the encoder of the writer: the
    bytes written for a text decode to that text, under [errors='strict']
    and under [errors='replace'] alike. *)
Theorem utf8_round_trip (errors : error_handler) (t : pystr) (data : bytes)
    (Henc : utf8_encode t = Ok data) :
  utf8_decode errors data = Ok t.
Proof. now apply utf8_decode_encode. Qed.

Lemma utf8_round_trip_witness :
  utf8_decode Replace [x68; xc3; xa9; xe2; x82; xac; xf0; x9f; x98; x80]
  = Ok [104; 233; 8364; 128512]%N.
Proof.
  apply (@utf8_round_trip Replace [104; 233; 8364; 128512]%N). reflexivity.
Defined.
